(** * DatabaseProcessor: metadata-driven column cleaning

    A shallow embedding of [src/metadata.py] (class [DatabaseProcessor]) and
    the properties of its three operations: loading the metadata, renaming
    the columns of a table and rewriting categorical codes.

    Conventions of the embedding.
    - A Python [str] is a Rocq [string]; each character stands for the code
      point of the same number (0..255).
    - A cell of a table is a binary64 number (pandas' numeric storage, with
      NaN as the missing marker), a string, or [None].
    - pandas objects live in a heap of objects addressed by locations, so
      that "the same object" and "a new object" can be told apart; [print]
      appends a line to the standard output of the world.
    - Python exceptions are the [Raise] outcomes of the monad [M]. *)

From Stdlib Require Import ZArith Ascii Floats.
From stdpp Require Import gmap strings list pretty.

Local Open Scope Z_scope.

(** ** Python strings *)

Module Str.

Definition code_point (c : ascii) : N := N_of_ascii c.

(** [c.isdigit()] for a single character below U+0100: the decimal digits
    and the three superscript digits U+00B2, U+00B3, U+00B9 (Unicode
    Numeric_Type=Digit). *)
Definition is_digit_char (c : ascii) : bool :=
  let n := code_point c in
  ((48 <=? n) && (n <=? 57) || (n =? 178) || (n =? 179) || (n =? 185))%N.

(** The decimal digits proper, the only digits [float()] reads. *)
Definition is_decimal_char (c : ascii) : bool :=
  let n := code_point c in ((48 <=? n) && (n <=? 57))%N.

Definition is_dot (c : ascii) : bool := (code_point c =? 46)%N.

Fixpoint all_chars (p : ascii -> bool) (s : string) : bool :=
  match s with
  | EmptyString => true
  | String c s' => p c && all_chars p s'
  end.

(** [s.isdigit()]: every character is a digit and there is at least one. *)
Definition isdigit (s : string) : bool :=
  match s with
  | EmptyString => false
  | _ => all_chars is_digit_char s
  end.

(** [s.replace('.', '')]: every occurrence of the dot is removed. *)
Fixpoint remove_dots (s : string) : string :=
  match s with
  | EmptyString => EmptyString
  | String c s' => if is_dot c then remove_dots s' else String c (remove_dots s')
  end.

Fixpoint count_dots (s : string) : nat :=
  match s with
  | EmptyString => O
  | String c s' => if is_dot c then S (count_dots s') else count_dots s'
  end.

(** [s.replace('.', '', 1)]: only the first dot is removed. *)
Fixpoint remove_first_dot (s : string) : string :=
  match s with
  | EmptyString => EmptyString
  | String c s' => if is_dot c then s' else String c (remove_first_dot s')
  end.

End Str.

(** ** Python's [float()] on unsigned decimal literals

    The guard of [apply_categorical_mapping] lets through only strings made
    of digits and dots, so [float] is modelled on that alphabet: the string
    must be [digits], [digits.], [.digits] or [digits.digits] with decimal
    digits, and denotes the binary64 number nearest to its decimal value
    (ties to even, overflow to infinity). Anything else on that alphabet is
    a [ValueError], here [None]. Signs, exponents, blanks, underscores and
    the words inf and nan never reach the call. *)

Module PyFloat.

Definition digit_value (c : ascii) : Z := Z.of_N (Str.code_point c) - 48.

(** The integer written by the decimal digits of [s], dots skipped. *)
Fixpoint digits_value (acc : Z) (s : string) : Z :=
  match s with
  | EmptyString => acc
  | String c s' =>
      if Str.is_dot c then digits_value acc s'
      else digits_value (10 * acc + digit_value c) s'
  end.

(** The number of digits after the dot (0 when there is no dot). *)
Fixpoint fraction_digits (s : string) : nat :=
  match s with
  | EmptyString => O
  | String c s' => if Str.is_dot c then String.length s' else fraction_digits s'
  end.

(** [n / 10^k] rounded to binary64, to nearest with ties to even. *)
Definition round_decimal (n : Z) (k : nat) : float :=
  match n with
  | Zpos p =>
      SF2Prim (SFdiv 53 1024 (S754_finite false p 0)
                 (S754_finite false (Z.to_pos (10 ^ Z.of_nat k)) 0))
  | _ => 0%float
  end.

Definition well_formed (s : string) : bool :=
  Str.all_chars (fun c => Str.is_decimal_char c || Str.is_dot c) s
  && Nat.leb (Str.count_dots s) 1
  && negb (String.eqb (Str.remove_dots s) EmptyString).

Definition float (s : string) : option float :=
  if well_formed s
  then Some (round_decimal (digits_value 0 s) (fraction_digits s))
  else None.

End PyFloat.

(** ** Cells, objects and the world *)

(** A cell of a column. *)
Inductive value :=
| VNum (x : float)
| VStr (s : string)
| VNone.

(** Python's [==] between two cells, as pandas applies it when it looks for
    the cells to replace: numbers by IEEE equality (NaN equals nothing, the
    two zeros are equal), strings by content, and no number equals a string. *)
Definition py_eq (a b : value) : bool :=
  match a, b with
  | VNum x, VNum y => PrimFloat.eqb x y
  | VStr s, VStr t => String.eqb s t
  | VNone, VNone => true
  | _, _ => false
  end.

Definition loc := positive.

(** The pandas objects: a [Series] holds its cells; a [DataFrame] holds its
    columns in order, each a label and the location of the column's Series. *)
Inductive object :=
| Series (values : list value)
| DataFrame (columns : list (string * loc)).

Record world := World {
  heap : gmap loc object;
  stdout : list string
}.

Inductive exn :=
| FileNotFoundError (msg : string)
| ValueError (msg : string)
| KeyError (key : string)
| TypeError
| AttributeError
| OtherError (class_name : string).

Inductive outcome (A : Type) :=
| Return (a : A)
| Raise (e : exn).
Arguments Return {A} a.
Arguments Raise {A} e.

(** Computations that read and extend the world and may raise. *)
Definition M (A : Type) : Type := world -> outcome A * world.

Definition ret {A} (a : A) : M A := fun w => (Return a, w).

Definition raise {A} (e : exn) : M A := fun w => (Raise e, w).

Definition bind {A B} (m : M A) (k : A -> M B) : M B :=
  fun w =>
    match m w with
    | (Return a, w') => k a w'
    | (Raise e, w') => (Raise e, w')
    end.

Declare Scope py_scope.
Delimit Scope py_scope with py.
Notation "x <- m ;; k" := (bind m (fun x => k))
  (at level 100, m at next level, right associativity) : py_scope.
Notation "m ;; k" := (bind m (fun _ => k))
  (at level 100, right associativity) : py_scope.
Local Open Scope py_scope.

(** [print(line)] *)
Definition print (line : string) : M unit :=
  fun w => (Return tt, World (heap w) (stdout w ++ [line])).

(** A new object, at a location the heap does not use yet. *)
Definition alloc (o : object) : M loc :=
  fun w =>
    let l := fresh (dom (heap w)) in
    (Return l, World (<[l := o]> (heap w)) (stdout w)).

Definition read_series (l : loc) : M (list value) :=
  fun w =>
    match heap w !! l with
    | Some (Series vs) => (Return vs, w)
    | _ => (Raise AttributeError, w)
    end.

(** [df.columns] with the locations of the columns. *)
Definition read_frame (df : loc) : M (list (string * loc)) :=
  fun w =>
    match heap w !! df with
    | Some (DataFrame cols) => (Return cols, w)
    | _ => (Raise AttributeError, w)
    end.

(** A loop [for x in xs: acc = body(acc, x)]. *)
Fixpoint for_each {A B} (xs : list A) (body : B -> A -> M B) (acc : B) : M B :=
  match xs with
  | [] => ret acc
  | x :: xs' => acc' <- body acc x ;; for_each xs' body acc'
  end.

(** ** Python dictionaries

    A [dict] keeps its keys in insertion order; assigning to a key that is
    present replaces the value in place, assigning to a new key appends. *)

Definition dict (V : Type) : Type := list (string * V).

Fixpoint dict_get {V} (k : string) (d : dict V) : option V :=
  match d with
  | [] => None
  | (k', v) :: d' => if String.eqb k' k then Some v else dict_get k d'
  end.

Definition dict_contains {V} (k : string) (d : dict V) : bool :=
  match dict_get k d with Some _ => true | None => false end.

Fixpoint dict_set {V} (k : string) (v : V) (d : dict V) : dict V :=
  match d with
  | [] => [(k, v)]
  | (k', v') :: d' =>
      if String.eqb k' k then (k', v) :: d' else (k', v') :: dict_set k v d'
  end.

(** ** The pandas operations the processor calls *)

(** [name in df.columns] *)
Definition has_column (name : string) (cols : list (string * loc)) : bool :=
  existsb (fun c => String.eqb (fst c) name) cols.

(** [df[name]]: the Series of the column labelled [name]. Labels of a table
    are distinct (a table is a collection of named columns); the column is
    the one that carries the label. *)
Definition getitem (df : loc) (name : string) : M loc :=
  cols <- read_frame df ;;
  match dict_get name cols with
  | Some l => ret l
  | None => raise (KeyError name)
  end.

(** [series.copy()] *)
Definition copy (l : loc) : M loc :=
  vs <- read_series l ;;
  alloc (Series vs).

Definition replace_values (to_replace new : value) (vs : list value) : list value :=
  map (fun c => if py_eq c to_replace then new else c) vs.

(** [series.replace(to_replace, value)]: a new Series in which the cells
    equal to [to_replace] hold [value]; the receiver is not changed. *)
Definition replace (l : loc) (to_replace new : value) : M loc :=
  vs <- read_series l ;;
  alloc (Series (replace_values to_replace new vs)).

(** [df[name] = series]: the table itself is updated; the column labelled
    [name] becomes a copy of the Series, a new label is added last. *)
Definition setitem (df : loc) (name : string) (series : loc) : M unit :=
  cols <- read_frame df ;;
  l <- copy series ;;
  fun w => (Return tt, World (<[df := DataFrame (dict_set name l cols)]> (heap w)) (stdout w)).

(** [mapping.get(label, label)] *)
Definition rename_label (mapping : dict string) (label : string) : string :=
  match dict_get label mapping with
  | Some new => new
  | None => label
  end.

(** [df.rename(columns=mapping)]: a new DataFrame over copies of the
    columns, every label sent through the mapping. *)
Definition rename (df : loc) (mapping : dict string) : M loc :=
  cols <- read_frame df ;;
  cols' <- for_each cols
             (fun acc c => l <- copy (snd c) ;;
                           ret (acc ++ [(rename_label mapping (fst c), l)]))
             [] ;;
  alloc (DataFrame cols').

(** ** Loading the metadata: [__init__] and [load_metadata] *)

#[local] Set Warnings "-register-all".

(** A JSON document as [json.load] returns it. *)
Inductive json :=
| JNull
| JBool (b : bool)
| JNumber (x : float)
| JString (s : string)
| JArray (items : list json)
| JObject (members : dict json).

(** What [open] and [json.load] make of a path that is bound in the file
    system: [Document j] when the file opens and its text is the JSON
    document [j]; [NotJSON] when the file opens and [json.load] raises
    [JSONDecodeError]; [Unreadable error] when [open] or [json.load] raises
    an exception of another class, named [error], that is neither
    [FileNotFoundError] nor [JSONDecodeError] ([IsADirectoryError],
    [PermissionError], [UnicodeDecodeError], [RecursionError]). A path that
    is not bound has no file. *)
Inductive file :=
| Unreadable (error : string)
| NotJSON
| Document (j : json).

Definition filesystem : Type := gmap string file.

Record DatabaseProcessor := {
  metadata_file : string;
  metadata : json;
  column_mappings : json
}.

(** Lines 28-34. [open] raises [FileNotFoundError] on a missing file, which
    is raised again with the class's message; [json.load] raises
    [JSONDecodeError], which is raised again as a [ValueError]; an exception
    of any other class is not caught and leaves the call as it is. *)
Definition load_metadata (fs : filesystem) (metadata_file : string) : outcome json :=
  match fs !! metadata_file with
  | None =>
      Raise (FileNotFoundError
               ("Metadata file " +:+ metadata_file
                +:+ " not found. Please ensure the JSON file exists."))
  | Some (Unreadable error) => Raise (OtherError error)
  | Some NotJSON => Raise (ValueError ("Invalid JSON format in " +:+ metadata_file))
  | Some (Document j) => Return j
  end.

(** [obj[key]] for a string key: only an object can be indexed by a string,
    and the key has to be there. *)
Definition subscript (obj : json) (key : string) : outcome json :=
  match obj with
  | JObject members =>
      match dict_get key members with
      | Some v => Return v
      | None => Raise (KeyError key)
      end
  | _ => Raise TypeError
  end.

(** Lines 17-19. *)
Definition init (fs : filesystem) (metadata_file : string) : outcome DatabaseProcessor :=
  match load_metadata fs metadata_file with
  | Raise e => Raise e
  | Return metadata =>
      match subscript metadata "column_mappings" with
      | Raise e => Raise e
      | Return column_mappings =>
          Return {| metadata_file := metadata_file;
                    metadata := metadata;
                    column_mappings := column_mappings |}
      end
  end.

(** The two error kinds of the specification: ConfigNotFound is Python's
    [FileNotFoundError], ConfigMalformed is the [ValueError] of line 34. *)
Definition is_ConfigNotFound (e : exn) : bool :=
  match e with FileNotFoundError _ => true | _ => false end.

Definition is_ConfigMalformed (e : exn) : bool :=
  match e with ValueError _ => true | _ => false end.

(** ** The column mappings

    The methods read [self.column_mappings] only. They are modelled on a
    value of the schema of the configuration file: a dictionary from the
    original column name to [new_name], [type] and [categories], the latter
    a dictionary from code to description, or null. *)

Record column_info := {
  new_name : string;
  type : string;
  categories : option (dict string)
}.

Definition mappings : Type := dict column_info.

(** The truth value of [info['categories']]: [None] and the empty
    dictionary are false. *)
Definition truthy (c : option (dict string)) : bool :=
  match c with
  | Some (_ :: _) => true
  | _ => false
  end.

(** A dictionary comprehension [{k: v for ...}] over a list of pairs. *)
Definition dict_of {V} (items : list (string * V)) : dict V :=
  foldl (fun d kv => dict_set (fst kv) (snd kv) d) [] items.

(** Line 55. *)
Definition get_column_mapping (self : mappings) : dict string :=
  dict_of (map (fun entry => (fst entry, new_name (snd entry))) self).

(** Lines 64-68. *)
Definition get_categorical_columns (self : mappings) : dict (option (dict string)) :=
  foldl (fun categorical entry =>
           let info := snd entry in
           if String.eqb (type info) "categorical" && truthy (categories info)
           then dict_set (new_name info) (categories info) categorical
           else categorical)
        [] self.

(** Lines 80-95. *)
Definition rename_columns (self : mappings) (df : loc) : M loc :=
  let column_mapping := get_column_mapping self in
  existing_mapping <-
    for_each column_mapping
      (fun existing kv =>
         cols <- read_frame df ;;
         ret (if has_column (fst kv) cols
              then dict_set (fst kv) (snd kv) existing
              else existing))
      [] ;;
  match existing_mapping with
  | [] =>
      print "Warning: No matching columns found to rename" ;;
      ret df
  | _ =>
      df_renamed <- rename df existing_mapping ;;
      print ("Renamed " +:+ pretty (length existing_mapping) +:+ " columns:") ;;
      for_each existing_mapping
        (fun _ kv => print ("  '" +:+ fst kv +:+ "' -> '" +:+ snd kv +:+ "'"))
        tt ;;
      ret df_renamed
  end.

(** Lines 123-128: one turn of the loop over [categories.items()]. *)
Definition substitute (series : loc) (item : string * string) : M loc :=
  let (code, description) := item in
  if Str.isdigit (Str.remove_dots code) then
    match PyFloat.float code with
    | Some numeric_code =>
        replace series (VNum numeric_code) (VStr (code +:+ ": " +:+ description))
    | None => raise (ValueError ("could not convert string to float: '" +:+ code +:+ "'"))
    end
  else
    replace series (VStr code) (VStr (code +:+ ": " +:+ description)).

(** [categories.items()] *)
Definition items (categories : option (dict string)) : M (list (string * string)) :=
  match categories with
  | Some d => ret d
  | None => raise AttributeError
  end.

(** Lines 108-130. The result is [None] or the location of a Series. *)
Definition apply_categorical_mapping (self : mappings) (df : loc) (column_name : string)
  : M (option loc) :=
  cols <- read_frame df ;;
  if negb (has_column column_name cols) then
    print ("Warning: Column '" +:+ column_name +:+ "' not found in DataFrame") ;;
    ret None
  else
    let categorical_cols := get_categorical_columns self in
    match dict_get column_name categorical_cols with
    | None =>
        print ("Warning: No categorical mapping found for '" +:+ column_name +:+ "'") ;;
        column <- getitem df column_name ;;
        ret (Some column)
    | Some categories =>
        column <- getitem df column_name ;;
        series <- copy column ;;
        pairs <- items categories ;;
        series <- for_each pairs substitute series ;;
        ret (Some series)
    end.

(** ** Vocabulary of the properties *)

(** [df] is a table of the world: a DataFrame whose labels are distinct and
    whose columns are Series. *)
Record is_table (w : world) (df : loc) (cols : list (string * loc)) : Prop := {
  table_frame : heap w !! df = Some (DataFrame cols);
  table_labels : NoDup (map fst cols);
  table_series : Forall (fun c => exists vs, heap w !! snd c = Some (Series vs)) cols
}.

(** The cells of the Series at [l], if there is one. *)
Definition cells (w : world) (l : loc) : option (list value) :=
  match heap w !! l with
  | Some (Series vs) => Some vs
  | _ => None
  end.

(** The value line 124-128 compares the cells with for a code: the number
    the code denotes when the guard takes the code for numeric, the code
    itself otherwise; [None] when [float(code)] raises. *)
Definition target (code : string) : option value :=
  if Str.isdigit (Str.remove_dots code)
  then option_map VNum (PyFloat.float code)
  else Some (VStr code).

(** The string a matching cell is rewritten to. *)
Definition rewritten (item : string * string) : value :=
  VStr (fst item +:+ ": " +:+ snd item).

(** A code matches a cell when the cell equals the code's target. *)
Definition code_matches (code : string) (v : value) : bool :=
  match target code with
  | Some t => py_eq v t
  | None => false
  end.

(** One code applied to one cell, and all codes in order to one cell. *)
Definition rewrite_cell (v : value) (item : string * string) : value :=
  if code_matches (fst item) v then rewritten item else v.

Definition rewrite_cells (pairs : list (string * string)) (vs : list value) : list value :=
  map (fun v => foldl rewrite_cell v pairs) vs.

(** Every code of the table can be compared: [float] raises on none. *)
Definition codes_readable (pairs : list (string * string)) : Prop :=
  Forall (fun item => target (fst item) <> None) pairs.

(** No code matches a rewritten string of the same table. *)
Definition no_collision (pairs : list (string * string)) : Prop :=
  forall item item', In item pairs -> In item' pairs ->
    code_matches (fst item) (rewritten item') = false.

(** The numeric test in the words of the specification: after removing at
    most one decimal point, the remaining characters are all digits. *)
Definition spec_is_numeric (code : string) : bool :=
  Str.isdigit (Str.remove_first_dot code).

(** A mapping entry that gives the column [name] a category table. *)
Definition categorical_entry (name : string) (info : column_info) : Prop :=
  new_name info = name /\ type info = "categorical" /\ truthy (categories info) = true.

(** The two warnings of [apply_categorical_mapping]. *)
Definition warning_not_found (name : string) : string :=
  "Warning: Column '" +:+ name +:+ "' not found in DataFrame".

Definition warning_no_mapping (name : string) : string :=
  "Warning: No categorical mapping found for '" +:+ name +:+ "'".

(** A computation leaves the objects of the heap as they are: it only adds
    objects. *)
Definition preserves {A} (m : M A) : Prop :=
  forall w, heap w ⊆ heap (snd (m w)).

(** ** Example data *)

Definition sex_info : column_info :=
  {| new_name := "sex";
     type := "categorical";
     categories := Some [("1", "Male"); ("2", "Female")] |}.

Definition age_info : column_info :=
  {| new_name := "age"; type := "numeric"; categories := None |}.

Definition example_mappings : mappings := [("sexo", sex_info); ("edad", age_info)].

(** A raw table at location 1 (labels [sexo], [edad]) and a renamed table at
    location 4 (labels [sex], [age]). *)
Definition example_world : world :=
  World (list_to_map
           [(1%positive, DataFrame [("sexo", 2%positive); ("edad", 3%positive)]);
            (2%positive, Series [VNum 1; VNum 2; VNum 1]);
            (3%positive, Series [VNum 30; VNum 41; VNum 25]);
            (4%positive, DataFrame [("sex", 5%positive); ("age", 6%positive)]);
            (5%positive, Series [VNum 1; VNum 2; VNum 1]);
            (6%positive, Series [VNum 30; VNum 41; VNum 25])])
        [].

(** Two codes that denote the same number. *)
Definition same_number_mappings : mappings :=
  [("sexo", {| new_name := "sex";
               type := "categorical";
               categories := Some [("1", "Male"); ("1.0", "Man")] |})].

(** Two entries with one new name, the first with an empty category table. *)
Definition shared_name_mappings : mappings :=
  [("sexo", {| new_name := "sex"; type := "categorical"; categories := Some [] |});
   ("genero", {| new_name := "sex";
                 type := "categorical";
                 categories := Some [("1", "Male"); ("2", "Female")] |})].

(** A code with two decimal points. *)
Definition two_dots_mappings : mappings :=
  [("version", {| new_name := "release";
                  type := "categorical";
                  categories := Some [("1.2.3", "stable")] |})].

Definition two_dots_world : world :=
  World (list_to_map
           [(1%positive, DataFrame [("release", 2%positive)]);
            (2%positive, Series [VStr "1.2.3"; VStr "1.2.4"])])
        [].

(** The world after the call on the column [sex] of the renamed table, and
    after its result (the Series at location 9) is written back. *)
Definition example_after_call : world :=
  snd (apply_categorical_mapping example_mappings 4%positive "sex" example_world).

Definition example_written_back : world :=
  snd (setitem 4%positive "sex" 9%positive example_after_call).

(** A categorical entry whose category table is empty. *)
Definition empty_sex_info : column_info :=
  {| new_name := "sex"; type := "categorical"; categories := Some [] |}.

Definition empty_table_mappings : mappings := [("sexo", empty_sex_info); ("edad", age_info)].

(** A metadata file that is JSON but has no [column_mappings] member. *)
Definition other_schema_fs : filesystem :=
  {[ "db_metadata.json" := Document (JObject [("columns", JObject [])]) ]}.

(** The column [c'] of a renamed table against the column [c] it comes
    from: the label sent through the mapping, the same cells, in a Series
    that is new. *)
Definition renamed_column (mapping : dict string) (w w' : world)
    (c c' : string * loc) : Prop :=
  fst c' = rename_label mapping (fst c)
  /\ heap w !! snd c' = None
  /\ exists vs, heap w !! snd c = Some (Series vs) /\ heap w' !! snd c' = Some (Series vs).

(** The notices of [rename_columns]. *)
Definition notice_no_match : string := "Warning: No matching columns found to rename".

Definition notice_renamed (existing_mapping : dict string) : list string :=
  ("Renamed " +:+ pretty (length existing_mapping) +:+ " columns:")
  :: map (fun kv => "  '" +:+ fst kv +:+ "' -> '" +:+ snd kv +:+ "'") existing_mapping.

(** The entries of the column mapping whose original name is a label of the
    table, as pairs of old and new name. *)
Definition existing_entries (self : mappings) (cols : list (string * loc)) : dict string :=
  List.filter (fun kv => has_column (fst kv) cols)
    (map (fun entry => (fst entry, new_name (snd entry))) self).

(** The column [c'] of the table [rename_columns] returns against the
    column [c] of the table it was given: the cells are the same; the label
    is the new name of the entry of [c], or the label of [c] when the
    mapping has no entry for it. *)
Definition column_renamed (self : mappings) (w w' : world) (c c' : string * loc) : Prop :=
  (exists vs, cells w (snd c) = Some vs /\ cells w' (snd c') = Some vs)
  /\ (forall info, In (fst c, info) self -> fst c' = new_name info)
  /\ ((forall info, ~ In (fst c, info) self) -> fst c' = fst c).

(** A column of answers coded by letters. *)
Definition answer_info : column_info :=
  {| new_name := "smoker";
     type := "categorical";
     categories := Some [("Y", "Yes"); ("N", "No")] |}.

Definition answer_mappings : mappings := [("fuma", answer_info)].

Definition answer_world : world :=
  World (list_to_map
           [(1%positive, DataFrame [("smoker", 2%positive)]);
            (2%positive, Series [VStr "Y"; VStr "N"; VStr "Y"])])
        [].

(** ** More vocabulary *)

(** The guard of line 124. *)
Definition numeric_guard (code : string) : bool :=
  Str.isdigit (Str.remove_dots code).

(** A code written with decimal digits and at most one decimal point. *)
Definition plain_decimal (code : string) : bool :=
  Str.all_chars (fun c => Str.is_decimal_char c || Str.is_dot c) code
  && Nat.leb (Str.count_dots code) 1.

(** A code that passes the guard and that [float] rejects. *)
Definition rejected_code (code : string) : bool :=
  numeric_guard code && negb (plain_decimal code).

(** The message of the [ValueError] of [float(code)]. *)
Definition float_error (code : string) : exn :=
  ValueError ("could not convert string to float: '" +:+ code +:+ "'").

(** A missing cell: [None] or NaN. *)
Definition is_missing (v : value) : Prop := v = VNone \/ v = VNum nan.


Definition is_number_cell (v : value) : bool :=
  match v with VNum _ => true | _ => false end.

(** No two entries of a category table match the same cell. *)
Definition codes_exclusive (pairs : list (string * string)) : Prop :=
  forall item item' v, In item pairs -> In item' pairs ->
    code_matches (fst item) v = true -> code_matches (fst item') v = true ->
    item = item'.

(** The label [rename_columns] gives to a column labelled [label]. *)
Definition new_label (self : mappings) (label : string) : string :=
  match dict_get label self with
  | Some info => new_name info
  | None => label
  end.

(** The renamed table with the codes of [sex] stored as strings and a
    missing cell. *)
Definition string_cells_world : world :=
  World (list_to_map
           [(4%positive, DataFrame [("sex", 5%positive); ("age", 6%positive)]);
            (5%positive, Series [VStr "1"; VStr "2"; VNone]);
            (6%positive, Series [VNum 30; VNum nan; VNum 25])])
        [].

(** A category table for [age] whose second code has two decimal points and
    whose third code is a superscript digit. *)
Definition rejected_codes_mappings : mappings :=
  [("edad", {| new_name := "age";
               type := "categorical";
               categories := Some [("30", "thirty"); ("4.1.0", "forty-one");
                                   (String (ascii_of_nat 178) EmptyString, "squared")] |})].

(** A category table for [age] with readable codes. *)
Definition age_groups_mappings : mappings :=
  [("edad", {| new_name := "age";
               type := "categorical";
               categories := Some [("30", "thirty"); ("25", "twenty-five")] |})].

(** The category table of [answer_mappings] in the other order. *)
Definition reversed_answer_mappings : mappings :=
  [("fuma", {| new_name := "smoker";
               type := "categorical";
               categories := Some [("N", "No"); ("Y", "Yes")] |})].

(** A file system with a file that is not JSON, a JSON object without the
    member [column_mappings] and a JSON array. *)
Definition load_examples_fs : filesystem :=
  list_to_map
    [("garbled.json", NotJSON);
     ("db_metadata.json", Document (JObject [("columns", JObject [])]));
     ("list.json", Document (JArray []))].

(** Every digit of the code is a decimal digit. *)
Definition decimal_digits_only (code : string) : bool :=
  Str.all_chars (fun c => negb (Str.is_digit_char c) || Str.is_decimal_char c) code.

(** The comparison of a code with a cell in the words of the
    specification: a numeric code is compared after converting the code to
    a floating-point number, every other code by exact equality with the
    cell. *)
Definition spec_matches (code : string) (v : value) : bool :=
  if spec_is_numeric code
  then match PyFloat.float code with
       | Some x => py_eq v (VNum x)
       | None => false
       end
  else py_eq v (VStr code).

Definition spec_rewrite_cell (v : value) (item : string * string) : value :=
  if spec_matches (fst item) v then VStr (fst item +:+ ": " +:+ snd item) else v.

(** One entry applied to one cell by exact comparison with the code as a
    string. *)
Definition string_rewrite_cell (v : value) (item : string * string) : value :=
  if py_eq v (VStr (fst item)) then VStr (fst item +:+ ": " +:+ snd item) else v.

(** A category table whose codes carry a sign, an exponent or letters, and
    a column that holds numbers and strings. *)
Definition signed_codes_mappings : mappings :=
  [("saldo", {| new_name := "balance";
                type := "categorical";
                categories := Some [("-1", "unknown"); ("1e5", "capped"); ("N/A", "none")] |})].

Definition signed_cells_world : world :=
  World (list_to_map
           [(1%positive, DataFrame [("balance", 2%positive)]);
            (2%positive, Series [VNum (-1); VStr "-1"; VNum 100000; VStr "N/A"; VNum nan])])
        [].

(** * Properties *)

(** ** Reading decimal literals *)

Example float_1 : PyFloat.float "1" = Some 1%float.
Proof. reflexivity. Qed.

Example float_2_5 : PyFloat.float "2.50" = Some 2.5%float.
Proof. reflexivity. Qed.

Example float_trailing_dot : PyFloat.float "7." = Some 7%float.
Proof. reflexivity. Qed.

Example float_leading_dot : PyFloat.float ".125" = Some 0.125%float.
Proof. reflexivity. Qed.

Example float_tie_to_even : PyFloat.float "9007199254740993" = Some 9007199254740992%float.
Proof. reflexivity. Qed.

Example float_two_dots : PyFloat.float "1.2.3" = None.
Proof. reflexivity. Qed.

Example float_lone_dot : PyFloat.float "." = None.
Proof. reflexivity. Qed.

(** ** The heap and the monad *)

Lemma alloc_spec (o : object) (w : world) :
  exists l, alloc o w = (Return l, World (<[l := o]> (heap w)) (stdout w))
            /\ heap w !! l = None.
Proof.
  exists (fresh (dom (heap w))). split; [reflexivity|].
  apply not_elem_of_dom, is_fresh.
Qed.

Lemma heap_grows (w : world) (l : loc) (o : object) :
  heap w !! l = None -> heap w ⊆ <[l := o]> (heap w).
Proof. intros H. by apply insert_subseteq. Qed.

Lemma read_series_spec (l : loc) (vs : list value) (w : world) :
  heap w !! l = Some (Series vs) -> read_series l w = (Return vs, w).
Proof. intros H. unfold read_series. by rewrite H. Qed.

Lemma read_frame_spec (df : loc) cols (w : world) :
  heap w !! df = Some (DataFrame cols) -> read_frame df w = (Return cols, w).
Proof. intros H. unfold read_frame. by rewrite H. Qed.

Lemma copy_spec (l : loc) (vs : list value) (w : world) :
  heap w !! l = Some (Series vs) ->
  exists l', copy l w = (Return l', World (<[l' := Series vs]> (heap w)) (stdout w))
             /\ heap w !! l' = None.
Proof.
  intros H. unfold copy, bind. rewrite (read_series_spec _ _ _ H).
  apply alloc_spec.
Qed.

Lemma replace_spec (l : loc) (t new : value) (vs : list value) (w : world) :
  heap w !! l = Some (Series vs) ->
  exists l', replace l t new w
             = (Return l', World (<[l' := Series (replace_values t new vs)]> (heap w)) (stdout w))
             /\ heap w !! l' = None.
Proof.
  intros H. unfold replace, bind. rewrite (read_series_spec _ _ _ H).
  apply alloc_spec.
Qed.

Lemma preserves_ret {A} (a : A) : preserves (ret a).
Proof. intros w. reflexivity. Qed.

Lemma preserves_raise {A} (e : exn) : preserves (@raise A e).
Proof. intros w. reflexivity. Qed.

Lemma preserves_bind {A B} (m : M A) (k : A -> M B) :
  preserves m -> (forall a, preserves (k a)) -> preserves (bind m k).
Proof.
  intros Hm Hk w. unfold bind. specialize (Hm w).
  destruct (m w) as [[a|e] w']; simpl in *; [|done].
  etrans; [exact Hm|apply Hk].
Qed.

Lemma preserves_print (line : string) : preserves (print line).
Proof. intros w. reflexivity. Qed.

Lemma preserves_alloc (o : object) : preserves (alloc o).
Proof.
  intros w. destruct (alloc_spec o w) as (l & -> & Hl). simpl.
  by apply heap_grows.
Qed.

Lemma preserves_read_series (l : loc) : preserves (read_series l).
Proof. intros w. unfold read_series. by repeat case_match. Qed.

Lemma preserves_read_frame (df : loc) : preserves (read_frame df).
Proof. intros w. unfold read_frame. by repeat case_match. Qed.

Lemma preserves_for_each {A B} (xs : list A) (body : B -> A -> M B) :
  (forall acc x, preserves (body acc x)) -> forall acc, preserves (for_each xs body acc).
Proof.
  intros Hbody. induction xs as [|x xs IH]; intros acc; simpl.
  - apply preserves_ret.
  - apply preserves_bind; [apply Hbody|apply IH].
Qed.

Create HintDb preserves.
#[local] Hint Resolve preserves_ret preserves_raise preserves_print preserves_alloc
  preserves_read_series preserves_read_frame : preserves.

Ltac preserves_tac :=
  repeat first
    [ progress eauto with preserves
    | apply preserves_bind; [|intros ?]
    | apply preserves_for_each; intros ? ?
    | case_match ].

Lemma preserves_copy (l : loc) : preserves (copy l).
Proof. unfold copy. preserves_tac. Qed.

Lemma preserves_replace (l : loc) (t new : value) : preserves (replace l t new).
Proof. unfold replace. preserves_tac. Qed.

Lemma preserves_getitem (df : loc) (name : string) : preserves (getitem df name).
Proof. unfold getitem. preserves_tac. Qed.

#[local] Hint Resolve preserves_copy preserves_replace preserves_getitem : preserves.

Lemma preserves_substitute (series : loc) (item : string * string) :
  preserves (substitute series item).
Proof. unfold substitute. destruct item. preserves_tac. Qed.

Lemma preserves_rename (df : loc) (mapping : dict string) : preserves (rename df mapping).
Proof. unfold rename. preserves_tac. Qed.

#[local] Hint Resolve preserves_substitute preserves_rename : preserves.

(** X2: on every path, the one that raises included,
    [apply_categorical_mapping] leaves every object that was in the heap
    before the call as it was. *)
Theorem preserves_apply_categorical_mapping self df name :
  preserves (apply_categorical_mapping self df name).
Proof. unfold apply_categorical_mapping, items. preserves_tac. Qed.

Lemma preserves_rename_columns self df : preserves (rename_columns self df).
Proof. unfold rename_columns. preserves_tac. Qed.

(** ** The substitution loop *)

Lemma has_column_dict_get (name : string) (cols : list (string * loc)) :
  has_column name cols = dict_contains name cols.
Proof.
  unfold dict_contains. induction cols as [|[k l] cols IH]; simpl; [done|].
  destruct (String.eqb k name); simpl; [done|exact IH].
Qed.

Lemma has_column_true (name : string) (cols : list (string * loc)) :
  has_column name cols = true -> exists l, dict_get name cols = Some l.
Proof.
  rewrite has_column_dict_get. unfold dict_contains.
  destruct (dict_get name cols); [eauto|done].
Qed.

Lemma has_column_false (name : string) (cols : list (string * loc)) :
  has_column name cols = false <-> dict_get name cols = None.
Proof.
  rewrite has_column_dict_get. unfold dict_contains.
  destruct (dict_get name cols); split; congruence.
Qed.

Lemma dict_get_In {V} (k : string) (v : V) (d : dict V) :
  dict_get k d = Some v -> In (k, v) d.
Proof.
  induction d as [|[k' v'] d IH]; simpl; [done|].
  destruct (String.eqb_spec k' k) as [->|Hne].
  - intros [= ->]. by left.
  - intros H. right. by apply IH.
Qed.

Lemma rewrite_cells_cons item pairs vs :
  rewrite_cells (item :: pairs) vs
  = rewrite_cells pairs (map (fun v => rewrite_cell v item) vs).
Proof. unfold rewrite_cells. by rewrite map_map. Qed.

Lemma rewrite_cells_nil vs : rewrite_cells [] vs = vs.
Proof. unfold rewrite_cells. simpl. by rewrite map_id. Qed.

Lemma substitute_readable series code description t vs w :
  heap w !! series = Some (Series vs) ->
  target code = Some t ->
  exists l,
    substitute series (code, description) w
    = (Return l,
       World (<[l := Series (map (fun v => rewrite_cell v (code, description)) vs)]> (heap w))
             (stdout w))
    /\ heap w !! l = None.
Proof.
  intros Hs Ht.
  assert (Heq : replace_values t (rewritten (code, description)) vs
                = map (fun v => rewrite_cell v (code, description)) vs).
  { unfold replace_values, rewrite_cell, code_matches. simpl. by rewrite Ht. }
  rewrite <- Heq. unfold substitute, target in *.
  destruct (Str.isdigit (Str.remove_dots code)).
  - destruct (PyFloat.float code) as [x|]; simpl in Ht; [|done].
    injection Ht as <-. by apply replace_spec.
  - injection Ht as <-. by apply replace_spec.
Qed.

Lemma substitute_unreadable series code description w :
  target code = None ->
  exists msg, substitute series (code, description) w = (Raise (ValueError msg), w).
Proof.
  intros Ht. unfold substitute, target in *.
  destruct (Str.isdigit (Str.remove_dots code)); [|done].
  destruct (PyFloat.float code); [done|]. by eexists.
Qed.

Lemma for_each_substitute pairs : forall series vs w,
  heap w !! series = Some (Series vs) ->
  codes_readable pairs ->
  exists r w',
    for_each pairs substitute series w = (Return r, w')
    /\ heap w' !! r = Some (Series (rewrite_cells pairs vs))
    /\ heap w ⊆ heap w'
    /\ stdout w' = stdout w
    /\ (r = series \/ heap w !! r = None).
Proof.
  induction pairs as [|[code description] pairs IH]; intros series vs w Hs Hok.
  - exists series, w. rewrite rewrite_cells_nil. simpl. unfold ret. eauto 10.
  - apply Forall_cons in Hok as [Hc Hok]. simpl in Hc.
    destruct (target code) as [t|] eqn:Ht; [|done].
    destruct (substitute_readable series code description t vs w Hs Ht)
      as (l & Hrun & Hfresh).
    set (w1 := World (<[l := Series (map (fun v => rewrite_cell v (code, description)) vs)]>
                        (heap w)) (stdout w)) in *.
    destruct (IH l (map (fun v => rewrite_cell v (code, description)) vs) w1)
      as (r & w' & Hloop & Hr & Hsub & Hout & Hnew); [apply lookup_insert_eq|done|].
    exists r, w'. cbn [for_each]. unfold bind at 1. rewrite Hrun, Hloop.
    rewrite rewrite_cells_cons. repeat split; [done| |done|].
    + etrans; [|exact Hsub]. by apply heap_grows.
    + right. destruct Hnew as [->|Hnew]; [done|].
      simpl in Hnew. apply lookup_insert_None in Hnew. tauto.
Qed.

(** ** Dictionaries *)

Lemma dict_get_set_eq {V} (k : string) (v : V) (d : dict V) :
  dict_get k (dict_set k v d) = Some v.
Proof.
  induction d as [|[k' v'] d IH]; simpl.
  - by rewrite String.eqb_refl.
  - destruct (String.eqb k' k) eqn:E; simpl; rewrite E; [done|exact IH].
Qed.

Lemma dict_get_set_ne {V} (k k' : string) (v : V) (d : dict V) :
  k <> k' -> dict_get k' (dict_set k v d) = dict_get k' d.
Proof.
  intros Hne. induction d as [|[k0 v0] d IH]; simpl.
  - apply String.eqb_neq in Hne. by rewrite Hne.
  - destruct (String.eqb_spec k0 k) as [->|Hk]; simpl.
    + apply String.eqb_neq in Hne. by rewrite Hne.
    + by rewrite IH.
Qed.

Lemma dict_get_None_keys {V} (k : string) (d : dict V) :
  dict_get k d = None <-> ~ In k (map fst d).
Proof.
  induction d as [|[k' v'] d IH]; simpl; [tauto|].
  destruct (String.eqb_spec k' k) as [->|Hk].
  - split; [done|]. intros H. destruct H. by left.
  - rewrite IH. tauto.
Qed.

Lemma dict_set_fresh {V} (k : string) (v : V) (d : dict V) :
  ~ In k (map fst d) -> dict_set k v d = d ++ [(k, v)].
Proof.
  induction d as [|[k' v'] d IH]; simpl; [done|].
  intros Hnot. destruct (String.eqb_spec k' k) as [->|Hk]; [tauto|].
  rewrite IH; [done|tauto].
Qed.

Lemma dict_get_NoDup {V} (k : string) (v : V) (d : dict V) :
  NoDup (map fst d) -> In (k, v) d -> dict_get k d = Some v.
Proof.
  induction d as [|[k' v'] d IH]; simpl; [done|].
  intros Hnd Hin. apply NoDup_cons in Hnd as [Hk' Hnd].
  destruct Hin as [[= -> ->]|Hin].
  - by rewrite String.eqb_refl.
  - destruct (String.eqb_spec k' k) as [->|Hk]; [|by apply IH].
    exfalso. apply Hk'. apply list_elem_of_In.
    change k with (fst (k, v)). by apply in_map.
Qed.

Lemma foldl_dict_set_NoDup {V} (items acc : list (string * V)) :
  NoDup (map fst (acc ++ items)) ->
  foldl (fun d kv => dict_set (fst kv) (snd kv) d) acc items = acc ++ items.
Proof.
  revert acc. induction items as [|[k v] items IH]; intros acc Hnd; simpl.
  - by rewrite app_nil_r.
  - rewrite dict_set_fresh.
    + rewrite IH; rewrite <- app_assoc; [done|exact Hnd].
    + rewrite map_app in Hnd. apply NoDup_app in Hnd as (_ & Hdis & _).
      intros Hin. apply (Hdis k); [by apply list_elem_of_In|]. simpl. by left.
Qed.

Lemma dict_of_NoDup {V} (items : list (string * V)) :
  NoDup (map fst items) -> dict_of items = items.
Proof. intros Hnd. unfold dict_of. by rewrite foldl_dict_set_NoDup. Qed.

(** ** The categorical columns *)

Lemma get_categorical_columns_snoc self old info :
  get_categorical_columns (self ++ [(old, info)])
  = if String.eqb (type info) "categorical" && truthy (categories info)
    then dict_set (new_name info) (categories info) (get_categorical_columns self)
    else get_categorical_columns self.
Proof. unfold get_categorical_columns. by rewrite foldl_app. Qed.

Lemma categorical_entry_test name info :
  categorical_entry name info
  <-> String.eqb (type info) "categorical" && truthy (categories info) = true
      /\ new_name info = name.
Proof.
  unfold categorical_entry. rewrite andb_true_iff, String.eqb_eq. tauto.
Qed.

Lemma get_categorical_columns_None self name :
  dict_get name (get_categorical_columns self) = None
  <-> forall old info, In (old, info) self -> ~ categorical_entry name info.
Proof.
  induction self as [|[old info] self IH] using rev_ind.
  - simpl. split; [intros _ ? ? []|done].
  - rewrite get_categorical_columns_snoc.
    destruct (String.eqb (type info) "categorical" && truthy (categories info)) eqn:E.
    + destruct (String.eqb_spec (new_name info) name) as [Hn|Hn].
      * subst name. rewrite dict_get_set_eq. split; [done|].
        intros H. exfalso. apply (H old info); [apply in_app_iff; right; by left|].
        by apply categorical_entry_test.
      * rewrite dict_get_set_ne by done. rewrite IH. split.
        -- intros H o i [Hin|[[= <- <-]|[]]]%in_app_iff; [by apply (H o i)|].
           rewrite categorical_entry_test. tauto.
        -- intros H o i Hin. apply (H o i), in_app_iff. by left.
    + rewrite IH. split.
      * intros H o i [Hin|[[= <- <-]|[]]]%in_app_iff; [by apply (H o i)|].
        rewrite categorical_entry_test. rewrite E. intros [? _]. done.
      * intros H o i Hin. apply (H o i), in_app_iff. by left.
Qed.

Lemma get_categorical_columns_Some self name c :
  dict_get name (get_categorical_columns self) = Some c ->
  exists old info, In (old, info) self /\ categorical_entry name info /\ categories info = c.
Proof.
  induction self as [|[old info] self IH] using rev_ind; [done|].
  rewrite get_categorical_columns_snoc.
  destruct (String.eqb (type info) "categorical" && truthy (categories info)) eqn:E.
  - destruct (String.eqb_spec (new_name info) name) as [Hn|Hn].
    + subst name. rewrite dict_get_set_eq. intros [= <-].
      exists old, info. split; [apply in_app_iff; right; by left|].
      split; [by apply categorical_entry_test|done].
    + rewrite dict_get_set_ne by done. intros (o & i & Hin & H)%IH.
      exists o, i. split; [apply in_app_iff; by left|done].
  - intros (o & i & Hin & H)%IH.
    exists o, i. split; [apply in_app_iff; by left|done].
Qed.

Lemma get_categorical_columns_pairs self name c :
  dict_get name (get_categorical_columns self) = Some c ->
  exists item pairs, c = Some (item :: pairs).
Proof.
  intros (old & info & _ & (_ & _ & Ht) & <-)%get_categorical_columns_Some.
  destruct (categories info) as [[|item pairs]|]; try done. eauto.
Qed.

(** ** The three branches of [apply_categorical_mapping] *)

Lemma apply_categorical_mapping_not_found self w df cols name :
  heap w !! df = Some (DataFrame cols) ->
  has_column name cols = false ->
  apply_categorical_mapping self df name w
  = (Return None, World (heap w) (stdout w ++ [warning_not_found name])).
Proof.
  intros Hdf Hcol. unfold apply_categorical_mapping, bind.
  rewrite (read_frame_spec _ _ _ Hdf), Hcol. reflexivity.
Qed.

Lemma apply_categorical_mapping_unmapped self w df cols name l :
  heap w !! df = Some (DataFrame cols) ->
  dict_get name cols = Some l ->
  dict_get name (get_categorical_columns self) = None ->
  apply_categorical_mapping self df name w
  = (Return (Some l), World (heap w) (stdout w ++ [warning_no_mapping name])).
Proof.
  intros Hdf Hcol Hcat. unfold apply_categorical_mapping, bind.
  rewrite (read_frame_spec _ _ _ Hdf).
  assert (Hhas : has_column name cols = true).
  { destruct (has_column name cols) eqn:E; [done|].
    apply has_column_false in E. congruence. }
  rewrite Hhas, Hcat. cbn [negb print]. unfold getitem, bind.
  rewrite read_frame_spec with (cols := cols) by done.
  rewrite Hcol. reflexivity.
Qed.

Lemma apply_categorical_mapping_mapped self w df cols name l vs pairs :
  heap w !! df = Some (DataFrame cols) ->
  dict_get name cols = Some l ->
  heap w !! l = Some (Series vs) ->
  dict_get name (get_categorical_columns self) = Some (Some pairs) ->
  codes_readable pairs ->
  exists r w',
    apply_categorical_mapping self df name w = (Return (Some r), w')
    /\ heap w' !! r = Some (Series (rewrite_cells pairs vs))
    /\ heap w !! r = None
    /\ heap w ⊆ heap w'
    /\ stdout w' = stdout w.
Proof.
  intros Hdf Hcol Hl Hcat Hok.
  destruct (copy_spec l vs w Hl) as (c & Hcopy & Hc).
  set (w1 := World (<[c := Series vs]> (heap w)) (stdout w)) in *.
  destruct (for_each_substitute pairs c vs w1)
    as (r & w' & Hloop & Hr & Hsub & Hout & Hnew); [apply lookup_insert_eq|done|].
  exists r, w'. split; [|repeat split].
  - unfold apply_categorical_mapping, bind.
    rewrite (read_frame_spec _ _ _ Hdf).
    assert (Hhas : has_column name cols = true).
    { destruct (has_column name cols) eqn:E; [done|].
      apply has_column_false in E. congruence. }
    rewrite Hhas, Hcat. cbn [negb]. unfold getitem, bind.
    rewrite (read_frame_spec _ _ _ Hdf), Hcol. unfold ret at 1.
    rewrite Hcopy. cbn [items]. unfold ret at 1. rewrite Hloop. reflexivity.
  - exact Hr.
  - destruct Hnew as [->|Hnew]; [done|].
    simpl in Hnew. apply lookup_insert_None in Hnew. tauto.
  - etrans; [|exact Hsub]. by apply heap_grows.
  - exact Hout.
Qed.

Lemma example_table_4 :
  is_table example_world 4%positive [("sex", 5%positive); ("age", 6%positive)].
Proof.
  split; [reflexivity| |].
  - apply (bool_decide_unpack _). vm_compute. exact I.
  - repeat constructor; eexists; reflexivity.
Defined.

Lemma example_table_1 :
  is_table example_world 1%positive [("sexo", 2%positive); ("edad", 3%positive)].
Proof.
  split; [reflexivity| |].
  - apply (bool_decide_unpack _). vm_compute. exact I.
  - repeat constructor; eexists; reflexivity.
Defined.

(** ** A column that is not in the table *)

(** C6: for every table and every column name that is not a label of the
    table, [apply_categorical_mapping] prints the not-found warning and
    returns [None]: it raises nothing, and no object is made or changed. *)
Theorem apply_categorical_mapping_absent_column self w df cols name :
  is_table w df cols ->
  ~ In name (map fst cols) ->
  apply_categorical_mapping self df name w
  = (Return None, World (heap w) (stdout w ++ [warning_not_found name])).
Proof.
  intros [Hdf _ _] Hname. apply apply_categorical_mapping_not_found with cols; [done|].
  apply has_column_false. by apply dict_get_None_keys.
Qed.

Lemma apply_categorical_mapping_absent_column_witness :
  apply_categorical_mapping example_mappings 4%positive "weight" example_world
  = (Return None,
     World (heap example_world)
           (stdout example_world ++ [warning_not_found "weight"])).
Proof.
  apply (apply_categorical_mapping_absent_column example_mappings example_world
           4%positive [("sex", 5%positive); ("age", 6%positive)] "weight").
  - exact example_table_4.
  - simpl. intros [H|[H|[]]]; discriminate H.
Defined.

(** ** A column without a categorical entry *)

(** C7: for every column of the table that no mapping entry gives a
    category table, [apply_categorical_mapping] prints the no-mapping
    warning and returns the column itself: the same Series, with the cells
    it had, in a heap that is as before. *)
Theorem apply_categorical_mapping_no_entry self w df cols name l vs :
  is_table w df cols ->
  dict_get name cols = Some l ->
  heap w !! l = Some (Series vs) ->
  (forall old info, In (old, info) self -> ~ categorical_entry name info) ->
  exists w',
    apply_categorical_mapping self df name w = (Return (Some l), w')
    /\ stdout w' = stdout w ++ [warning_no_mapping name]
    /\ heap w' = heap w
    /\ heap w' !! l = Some (Series vs).
Proof.
  intros [Hdf _ _] Hcol Hl Hnone.
  exists (World (heap w) (stdout w ++ [warning_no_mapping name])).
  split; [|by repeat split].
  apply apply_categorical_mapping_unmapped with cols; [done|done|].
  by apply get_categorical_columns_None.
Qed.

Lemma apply_categorical_mapping_no_entry_witness :
  exists w',
    apply_categorical_mapping example_mappings 4%positive "age" example_world
    = (Return (Some 6%positive), w')
    /\ stdout w' = stdout example_world ++ [warning_no_mapping "age"]
    /\ heap w' = heap example_world
    /\ heap w' !! 6%positive = Some (Series [VNum 30; VNum 41; VNum 25]).
Proof.
  apply (apply_categorical_mapping_no_entry example_mappings example_world
           4%positive [("sex", 5%positive); ("age", 6%positive)] "age" 6%positive).
  - exact example_table_4.
  - reflexivity.
  - reflexivity.
  - intros old info [[= <- <-]|[[= <- <-]|[]]] (Hn & Ht & _); simpl in *; discriminate.
Defined.

(** ** The worked example *)

(** C4: a column whose category table is {"1": "Male", "2": "Female"} and
    whose cells are the numbers 1.0, 2.0, 1.0 comes back as
    "1: Male", "2: Female", "1: Male". *)
Theorem apply_categorical_mapping_male_female self w df cols name l :
  is_table w df cols ->
  dict_get name cols = Some l ->
  heap w !! l = Some (Series [VNum 1; VNum 2; VNum 1]) ->
  dict_get name (get_categorical_columns self)
  = Some (Some [("1", "Male"); ("2", "Female")]) ->
  exists r w',
    apply_categorical_mapping self df name w = (Return (Some r), w')
    /\ heap w' !! r = Some (Series [VStr "1: Male"; VStr "2: Female"; VStr "1: Male"]).
Proof.
  intros [Hdf _ _] Hcol Hl Hcat.
  destruct (apply_categorical_mapping_mapped self w df cols name l _ _ Hdf Hcol Hl Hcat)
    as (r & w' & Hrun & Hr & _).
  - repeat constructor; vm_compute; discriminate.
  - exists r, w'. split; [exact Hrun|]. rewrite Hr. reflexivity.
Qed.

Lemma apply_categorical_mapping_male_female_witness :
  exists r w',
    apply_categorical_mapping example_mappings 4%positive "sex" example_world
    = (Return (Some r), w')
    /\ heap w' !! r = Some (Series [VStr "1: Male"; VStr "2: Female"; VStr "1: Male"]).
Proof.
  apply (apply_categorical_mapping_male_female example_mappings example_world
           4%positive [("sex", 5%positive); ("age", 6%positive)] "sex" 5%positive).
  - exact example_table_4.
  - reflexivity.
  - reflexivity.
  - reflexivity.
Defined.

(** ** The result is a new object *)

(** C8: when the column has a category table, the call returns a Series
    that did not exist before; its cells are the cells of the column with
    the codes applied in order; and every object that existed before is as
    it was: the table, the original column with its cells, and the other
    columns. *)
Theorem apply_categorical_mapping_copy_on_write self w df cols name l vs pairs :
  is_table w df cols ->
  dict_get name cols = Some l ->
  heap w !! l = Some (Series vs) ->
  dict_get name (get_categorical_columns self) = Some (Some pairs) ->
  codes_readable pairs ->
  exists r w',
    apply_categorical_mapping self df name w = (Return (Some r), w')
    /\ heap w !! r = None
    /\ heap w' !! r = Some (Series (map (fun v => foldl rewrite_cell v pairs) vs))
    /\ heap w' !! df = Some (DataFrame cols)
    /\ heap w' !! l = Some (Series vs)
    /\ (forall l' o, heap w !! l' = Some o -> heap w' !! l' = Some o).
Proof.
  intros [Hdf _ _] Hcol Hl Hcat Hok.
  destruct (apply_categorical_mapping_mapped self w df cols name l vs pairs)
    as (r & w' & Hrun & Hr & Hnew & Hsub & _); try done.
  exists r, w'.
  repeat split; try done.
  - by apply (lookup_weaken _ _ _ _ Hdf).
  - by apply (lookup_weaken _ _ _ _ Hl).
  - intros l' o Hl'. by apply (lookup_weaken _ _ _ _ Hl').
Qed.

Lemma apply_categorical_mapping_copy_on_write_witness :
  exists r w',
    apply_categorical_mapping example_mappings 4%positive "sex" example_world
    = (Return (Some r), w')
    /\ heap example_world !! r = None
    /\ heap w' !! r
       = Some (Series (map (fun v => foldl rewrite_cell v [("1", "Male"); ("2", "Female")])
                         [VNum 1; VNum 2; VNum 1]))
    /\ heap w' !! 4%positive = Some (DataFrame [("sex", 5%positive); ("age", 6%positive)])
    /\ heap w' !! 5%positive = Some (Series [VNum 1; VNum 2; VNum 1])
    /\ (forall l' o, heap example_world !! l' = Some o -> heap w' !! l' = Some o).
Proof.
  apply (apply_categorical_mapping_copy_on_write example_mappings example_world
           4%positive [("sex", 5%positive); ("age", 6%positive)] "sex" 5%positive
           [VNum 1; VNum 2; VNum 1] [("1", "Male"); ("2", "Female")]).
  - exact example_table_4.
  - reflexivity.
  - reflexivity.
  - reflexivity.
  - repeat constructor; vm_compute; discriminate.
Defined.

(** The cells the call of the witness returns. *)
Example copy_on_write_cells :
  map (fun v => foldl rewrite_cell v [("1", "Male"); ("2", "Female")])
    [VNum 1; VNum 2; VNum 1]
  = [VStr "1: Male"; VStr "2: Female"; VStr "1: Male"].
Proof. reflexivity. Qed.

(** ** One cell under all the codes *)

Lemma foldl_rewrite_cell_unmatched pairs : forall v,
  (forall item, In item pairs -> code_matches (fst item) v = false) ->
  foldl rewrite_cell v pairs = v.
Proof.
  induction pairs as [|item pairs IH]; intros v Hno; simpl; [done|].
  unfold rewrite_cell at 2. rewrite Hno by (by left).
  apply IH. intros i Hi. apply Hno. by right.
Qed.

Lemma foldl_rewrite_cell_cases pairs v :
  foldl rewrite_cell v pairs = v
  \/ exists item, In item pairs /\ foldl rewrite_cell v pairs = rewritten item.
Proof.
  induction pairs as [|item pairs IH] using rev_ind; [by left|].
  rewrite foldl_app. simpl. set (v' := foldl rewrite_cell v pairs) in *.
  unfold rewrite_cell. destruct (code_matches (fst item) v').
  - right. exists item. split; [apply in_app_iff; right; by left|done].
  - destruct IH as [IH|(i & Hi & IH)]; [by left|].
    right. exists i. split; [apply in_app_iff; by left|done].
Qed.

(** The first code that matches a cell decides it, as long as no later code
    matches the string the cell was rewritten to. *)
Lemma foldl_rewrite_cell_first_match pre item post v :
  (forall i, In i pre -> code_matches (fst i) v = false) ->
  code_matches (fst item) v = true ->
  (forall i, In i post -> code_matches (fst i) (rewritten item) = false) ->
  foldl rewrite_cell v (pre ++ item :: post) = rewritten item.
Proof.
  intros Hpre Hitem Hpost. rewrite foldl_app.
  rewrite (foldl_rewrite_cell_unmatched pre v Hpre). simpl.
  unfold rewrite_cell at 2. rewrite Hitem.
  by apply foldl_rewrite_cell_unmatched.
Qed.

Lemma numeric_target_never_matches_string code x s :
  target code = Some (VNum x) -> code_matches code (VStr s) = false.
Proof. intros H. unfold code_matches. by rewrite H. Qed.

Lemma rewrite_cells_idempotent pairs vs :
  no_collision pairs ->
  rewrite_cells pairs (rewrite_cells pairs vs) = rewrite_cells pairs vs.
Proof.
  intros Hno. unfold rewrite_cells. rewrite map_map. apply map_ext. intros v.
  destruct (foldl_rewrite_cell_cases pairs v) as [E|(item & Hitem & E)]; rewrite E.
  - exact E.
  - apply foldl_rewrite_cell_unmatched. intros i Hi. by apply Hno.
Qed.

(** When [float] raises on a code, the loop raises [ValueError]. *)
Lemma for_each_substitute_unreadable pairs : forall series vs w,
  heap w !! series = Some (Series vs) ->
  Exists (fun item => target (fst item) = None) pairs ->
  exists msg w', for_each pairs substitute series w = (Raise (ValueError msg), w').
Proof.
  induction pairs as [|[code description] pairs IH]; intros series vs w Hs Hex.
  - by apply Exists_nil in Hex.
  - cbn [for_each]. unfold bind at 1.
    destruct (target code) as [t|] eqn:Ht.
    + destruct (substitute_readable series code description t vs w Hs Ht)
        as (l & -> & _).
      apply Exists_cons in Hex as [Hex|Hex]; [simpl in Hex; congruence|].
      eapply IH; [apply lookup_insert_eq|exact Hex].
    + destruct (substitute_unreadable series code description w Ht) as (msg & ->).
      by exists msg, w.
Qed.

Lemma codes_readable_dec pairs :
  codes_readable pairs \/ Exists (fun item => target (fst item) = None) pairs.
Proof.
  induction pairs as [|item pairs [IH|IH]].
  - left. constructor.
  - destruct (target (fst item)) eqn:Ht.
    + left. constructor; [congruence|done].
    + right. by left.
  - right. by right.
Qed.

(** On a column with a category table the call either returns or raises
    [ValueError], and it returns exactly when every code is readable. *)
Lemma apply_categorical_mapping_returns self w df cols name l vs pairs out w' :
  heap w !! df = Some (DataFrame cols) ->
  dict_get name cols = Some l ->
  heap w !! l = Some (Series vs) ->
  dict_get name (get_categorical_columns self) = Some (Some pairs) ->
  apply_categorical_mapping self df name w = (Return out, w') ->
  codes_readable pairs.
Proof.
  intros Hdf Hcol Hl Hcat Hrun.
  destruct (codes_readable_dec pairs) as [Hok|Hbad]; [done|exfalso].
  destruct (copy_spec l vs w Hl) as (c & Hcopy & Hc).
  destruct (for_each_substitute_unreadable pairs c vs
              (World (<[c := Series vs]> (heap w)) (stdout w)))
    as (msg & w2 & Hloop); [apply lookup_insert_eq|done|].
  revert Hrun. unfold apply_categorical_mapping, bind.
  rewrite (read_frame_spec _ _ _ Hdf).
  assert (Hhas : has_column name cols = true).
  { destruct (has_column name cols) eqn:E; [done|].
    apply has_column_false in E. congruence. }
  rewrite Hhas, Hcat. cbn [negb]. unfold getitem, bind.
  rewrite (read_frame_spec _ _ _ Hdf), Hcol. unfold ret at 1.
  rewrite Hcopy. cbn [items]. unfold ret at 1. rewrite Hloop. discriminate.
Qed.

Lemma setitem_spec df name series cols vs w :
  heap w !! df = Some (DataFrame cols) ->
  heap w !! series = Some (Series vs) ->
  exists l,
    setitem df name series w
    = (Return tt,
       World (<[df := DataFrame (dict_set name l cols)]> (<[l := Series vs]> (heap w)))
             (stdout w))
    /\ heap w !! l = None.
Proof.
  intros Hdf Hs. unfold setitem, bind. rewrite (read_frame_spec _ _ _ Hdf).
  destruct (copy_spec series vs w Hs) as (l & -> & Hl). by exists l.
Qed.

(** ** Applying the mapping twice *)

(** C9: when no code of the column matches a rewritten "code: description"
    string, writing the result of the call back into the column and calling
    again returns the same cells. *)
Theorem apply_categorical_mapping_idempotent
    self w df cols name l vs pairs r w1 w2 :
  is_table w df cols ->
  dict_get name cols = Some l ->
  heap w !! l = Some (Series vs) ->
  dict_get name (get_categorical_columns self) = Some (Some pairs) ->
  no_collision pairs ->
  apply_categorical_mapping self df name w = (Return (Some r), w1) ->
  setitem df name r w1 = (Return tt, w2) ->
  exists r' w3 vs',
    apply_categorical_mapping self df name w2 = (Return (Some r'), w3)
    /\ heap w1 !! r = Some (Series vs')
    /\ heap w3 !! r' = Some (Series vs').
Proof.
  intros [Hdf _ _] Hcol Hl Hcat Hno Hfirst Hset.
  assert (Hok : codes_readable pairs)
    by exact (apply_categorical_mapping_returns _ _ _ _ _ _ _ _ _ _ Hdf Hcol Hl Hcat Hfirst).
  destruct (apply_categorical_mapping_mapped self w df cols name l vs pairs)
    as (r0 & w0 & Hrun & Hr & _ & Hsub & _); try done.
  rewrite Hfirst in Hrun. injection Hrun as <- <-.
  assert (Hdf1 : heap w1 !! df = Some (DataFrame cols))
    by exact (lookup_weaken _ _ _ _ Hdf Hsub).
  destruct (setitem_spec df name r cols _ w1 Hdf1 Hr) as (c & Hset' & Hc).
  rewrite Hset in Hset'. injection Hset' as ->.
  assert (Hne : df <> c) by congruence.
  destruct (apply_categorical_mapping_mapped self
              (World (<[df := DataFrame (dict_set name c cols)]>
                        (<[c := Series (rewrite_cells pairs vs)]> (heap w1))) (stdout w1))
              df (dict_set name c cols) name c (rewrite_cells pairs vs) pairs)
    as (r' & w3 & Hrun & Hr' & _); try done.
  - apply lookup_insert_eq.
  - apply dict_get_set_eq.
  - simpl. rewrite lookup_insert_ne by done. apply lookup_insert_eq.
  - exists r', w3, (rewrite_cells pairs vs). split; [exact Hrun|]. split; [exact Hr|].
    rewrite Hr'. by rewrite rewrite_cells_idempotent.
Qed.

Lemma example_no_collision : no_collision [("1", "Male"); ("2", "Female")].
Proof.
  intros item item' [<-|[<-|[]]] [<-|[<-|[]]]; reflexivity.
Defined.

Lemma apply_categorical_mapping_idempotent_witness :
  exists r' w3 vs',
    apply_categorical_mapping example_mappings 4%positive "sex" example_written_back
    = (Return (Some r'), w3)
    /\ heap example_after_call !! 9%positive = Some (Series vs')
    /\ heap w3 !! r' = Some (Series vs').
Proof.
  apply (apply_categorical_mapping_idempotent example_mappings example_world
           4%positive [("sex", 5%positive); ("age", 6%positive)] "sex" 5%positive
           [VNum 1; VNum 2; VNum 1] [("1", "Male"); ("2", "Female")]
           9%positive example_after_call example_written_back).
  - exact example_table_4.
  - reflexivity.
  - reflexivity.
  - reflexivity.
  - exact example_no_collision.
  - vm_compute. reflexivity.
  - vm_compute. reflexivity.
Defined.

(** ** Two codes for one cell *)

(** C2, the claim refuted: the codes "1" and "1.0" both match the cell 1.0;
    the cell ends as the rewrite of the earlier code, "1: Male", and the
    later code's "1.0: Man" is not applied. *)
Lemma later_code_does_not_win :
  code_matches "1" (VNum 1) = true
  /\ code_matches "1.0" (VNum 1) = true
  /\ exists r w',
       apply_categorical_mapping same_number_mappings 4%positive "sex" example_world
       = (Return (Some r), w')
       /\ heap w' !! r = Some (Series [VStr "1: Male"; VNum 2; VStr "1: Male"])
       /\ rewritten ("1.0", "Man") = VStr "1.0: Man".
Proof.
  split; [reflexivity|]. split; [reflexivity|].
  eexists _, _. split; [vm_compute; reflexivity|]. split; vm_compute; reflexivity.
Qed.

(** C2 as amended: the codes are applied one after the other in the order
    of the category table, each to the result of the one before; a cell is
    decided by the first code that matches it, and a later code changes it
    again only if that code matches the rewritten string. *)
Theorem apply_categorical_mapping_first_match_wins self w df cols name l vs pairs :
  is_table w df cols ->
  dict_get name cols = Some l ->
  heap w !! l = Some (Series vs) ->
  dict_get name (get_categorical_columns self) = Some (Some pairs) ->
  codes_readable pairs ->
  exists r w',
    apply_categorical_mapping self df name w = (Return (Some r), w')
    /\ heap w' !! r = Some (Series (map (fun v => foldl rewrite_cell v pairs) vs))
    /\ forall pre item post v,
         pairs = pre ++ item :: post ->
         (forall i, In i pre -> code_matches (fst i) v = false) ->
         code_matches (fst item) v = true ->
         (forall i, In i post -> code_matches (fst i) (rewritten item) = false) ->
         foldl rewrite_cell v pairs = rewritten item.
Proof.
  intros [Hdf _ _] Hcol Hl Hcat Hok.
  destruct (apply_categorical_mapping_mapped self w df cols name l vs pairs)
    as (r & w' & Hrun & Hr & _); try done.
  exists r, w'. split; [exact Hrun|]. split; [exact Hr|].
  intros pre item post v -> Hpre Hitem Hpost.
  by apply foldl_rewrite_cell_first_match.
Qed.

Lemma apply_categorical_mapping_first_match_wins_witness :
  exists r w',
    apply_categorical_mapping same_number_mappings 4%positive "sex" example_world
    = (Return (Some r), w')
    /\ heap w' !! r
       = Some (Series (map (fun v => foldl rewrite_cell v [("1", "Male"); ("1.0", "Man")])
                         [VNum 1; VNum 2; VNum 1]))
    /\ forall pre item post v,
         [("1", "Male"); ("1.0", "Man")] = pre ++ item :: post ->
         (forall i, In i pre -> code_matches (fst i) v = false) ->
         code_matches (fst item) v = true ->
         (forall i, In i post -> code_matches (fst i) (rewritten item) = false) ->
         foldl rewrite_cell v [("1", "Male"); ("1.0", "Man")] = rewritten item.
Proof.
  apply (apply_categorical_mapping_first_match_wins same_number_mappings example_world
           4%positive [("sex", 5%positive); ("age", 6%positive)] "sex" 5%positive
           [VNum 1; VNum 2; VNum 1] [("1", "Male"); ("1.0", "Man")]).
  - exact example_table_4.
  - reflexivity.
  - reflexivity.
  - reflexivity.
  - repeat constructor; vm_compute; discriminate.
Defined.

(** ** An entry with an empty category table *)

(** C10, the claim refuted: the entry of [sexo] is categorical with an
    empty category table, yet its column [sex] is among the categorical
    columns, through the entry of [genero], and its cells are rewritten. *)
Lemma empty_categories_not_excluded :
  In ("sexo", {| new_name := "sex"; type := "categorical"; categories := Some [] |})
     shared_name_mappings
  /\ dict_contains "sex" (get_categorical_columns shared_name_mappings) = true
  /\ exists r w',
       apply_categorical_mapping shared_name_mappings 4%positive "sex" example_world
       = (Return (Some r), w')
       /\ stdout w' = []
       /\ heap w' !! r = Some (Series [VStr "1: Male"; VStr "2: Female"; VStr "1: Male"]).
Proof.
  split; [by left|]. split; [reflexivity|].
  eexists _, _. split; [vm_compute; reflexivity|]. split; vm_compute; reflexivity.
Qed.

(** C10 as amended: when a column's mapping entry is categorical with an
    empty or null category table, and no other entry with that new name
    brings a category table, the column is not among the categorical
    columns; the call prints the no-mapping warning and returns the column
    itself, its cells as they were, and raises nothing. *)
Theorem apply_categorical_mapping_empty_categories
    self w df cols old info l vs :
  is_table w df cols ->
  dict_get (new_name info) cols = Some l ->
  heap w !! l = Some (Series vs) ->
  In (old, info) self ->
  type info = "categorical" ->
  truthy (categories info) = false ->
  (forall old' info', In (old', info') self -> new_name info' = new_name info ->
     type info' = "categorical" -> truthy (categories info') = false) ->
  dict_contains (new_name info) (get_categorical_columns self) = false
  /\ exists w',
       apply_categorical_mapping self df (new_name info) w = (Return (Some l), w')
       /\ stdout w' = stdout w ++ [warning_no_mapping (new_name info)]
       /\ heap w' = heap w
       /\ heap w' !! l = Some (Series vs).
Proof.
  intros [Hdf _ _] Hcol Hl Hin Htype Hempty Hothers.
  assert (Hnone : dict_get (new_name info) (get_categorical_columns self) = None).
  { apply get_categorical_columns_None. intros old' info' Hin' (Hn & Ht & Hc).
    rewrite (Hothers old' info' Hin' Hn Ht) in Hc. discriminate. }
  split; [unfold dict_contains; by rewrite Hnone|].
  exists (World (heap w) (stdout w ++ [warning_no_mapping (new_name info)])).
  split; [|by repeat split].
  by apply apply_categorical_mapping_unmapped with cols.
Qed.

Lemma apply_categorical_mapping_empty_categories_witness :
  dict_contains "sex" (get_categorical_columns empty_table_mappings) = false
  /\ exists w',
       apply_categorical_mapping empty_table_mappings 4%positive "sex" example_world
       = (Return (Some 5%positive), w')
       /\ stdout w' = stdout example_world ++ [warning_no_mapping "sex"]
       /\ heap w' = heap example_world
       /\ heap w' !! 5%positive = Some (Series [VNum 1; VNum 2; VNum 1]).
Proof.
  apply (apply_categorical_mapping_empty_categories empty_table_mappings example_world
           4%positive [("sex", 5%positive); ("age", 6%positive)] "sexo" empty_sex_info
           5%positive [VNum 1; VNum 2; VNum 1]).
  - exact example_table_4.
  - reflexivity.
  - reflexivity.
  - by left.
  - reflexivity.
  - reflexivity.
  - intros old' info' [[= <- <-]|[[= <- <-]|[]]] Hn Ht; [reflexivity|discriminate Hn].
Defined.

(** ** Numeric codes *)

Lemma remove_first_dot_no_dot code :
  Str.count_dots code = O -> Str.remove_first_dot code = code.
Proof.
  induction code as [|c code IH]; simpl; [done|].
  destruct (Str.is_dot c); [done|]. intros H. by rewrite IH.
Qed.

Lemma remove_dots_no_dot code :
  Str.count_dots code = O -> Str.remove_dots code = code.
Proof.
  induction code as [|c code IH]; simpl; [done|].
  destruct (Str.is_dot c); [done|]. intros H. by rewrite IH.
Qed.

Lemma remove_first_dot_one_dot code :
  (Str.count_dots code <= 1)%nat -> Str.remove_first_dot code = Str.remove_dots code.
Proof.
  induction code as [|c code IH]; simpl; [done|].
  destruct (Str.is_dot c).
  - intros H. rewrite remove_dots_no_dot; [done|lia].
  - intros H. by rewrite IH.
Qed.

(** On codes with at most one decimal point the guard of line 124 is the
    numeric test of the specification. *)
Theorem guard_is_spec_numeric code :
  (Str.count_dots code <= 1)%nat ->
  Str.isdigit (Str.remove_dots code) = spec_is_numeric code.
Proof. intros H. unfold spec_is_numeric. by rewrite remove_first_dot_one_dot. Qed.

(** C1: the code "1.2.3" is not numeric in the words of the specification
    (a decimal point is left after one is removed), so it should be compared
    with the cells as a string; the guard of line 124 takes it for numeric,
    and [float] raises [ValueError] out of the call. *)
Theorem two_decimal_points_raise :
  spec_is_numeric "1.2.3" = false
  /\ Str.isdigit (Str.remove_dots "1.2.3") = true
  /\ PyFloat.float "1.2.3" = None
  /\ apply_categorical_mapping two_dots_mappings 1%positive "release" two_dots_world
     = (Raise (ValueError "could not convert string to float: '1.2.3'"),
        World (<[3%positive := Series [VStr "1.2.3"; VStr "1.2.4"]]> (heap two_dots_world))
              []).
Proof. repeat split; vm_compute; reflexivity. Qed.

(** ** Loading the metadata *)

(** C3, the claim refuted: a metadata file that is a JSON object without
    the member [column_mappings] makes the construction raise [KeyError],
    which is neither of the two error kinds. *)
Lemma missing_column_mappings_is_key_error :
  init other_schema_fs "db_metadata.json" = Raise (KeyError "column_mappings")
  /\ is_ConfigNotFound (KeyError "column_mappings") = false
  /\ is_ConfigMalformed (KeyError "column_mappings") = false.
Proof. repeat split; vm_compute; reflexivity. Qed.

(** C3 as amended: the construction raises ConfigNotFound when the file is
    absent and ConfigMalformed when its text is not JSON. A JSON document
    without the member [column_mappings] is not reported as ConfigMalformed:
    an object without the member raises [KeyError] and a document that is
    not an object raises [TypeError], and neither is one of the two kinds. *)
Theorem init_error_kinds (fs : filesystem) (path : string) :
  (fs !! path = None ->
   exists e, init fs path = Raise e /\ is_ConfigNotFound e = true)
  /\ (fs !! path = Some NotJSON ->
      exists e, init fs path = Raise e /\ is_ConfigMalformed e = true)
  /\ (forall members,
        fs !! path = Some (Document (JObject members)) ->
        dict_get "column_mappings" members = None ->
        exists e,
          init fs path = Raise e
          /\ e = KeyError "column_mappings"
          /\ is_ConfigNotFound e = false /\ is_ConfigMalformed e = false)
  /\ (forall j,
        fs !! path = Some (Document j) ->
        (forall members, j <> JObject members) ->
        exists e,
          init fs path = Raise e
          /\ e = TypeError
          /\ is_ConfigNotFound e = false /\ is_ConfigMalformed e = false).
Proof.
  unfold init, load_metadata. repeat split.
  - intros ->. eexists. by split.
  - intros ->. eexists. by split.
  - intros members -> Hnone. simpl. rewrite Hnone. eexists. by repeat split.
  - intros j -> Hj. exists TypeError. split; [|by repeat split].
    destruct j as [|b|x|s|elements|members]; try done. by destruct (Hj members).
Qed.

Lemma init_error_kinds_witness :
  (exists e, init load_examples_fs "missing.json" = Raise e
             /\ is_ConfigNotFound e = true)
  /\ (exists e, init load_examples_fs "garbled.json" = Raise e
                /\ is_ConfigMalformed e = true)
  /\ (exists e, init load_examples_fs "db_metadata.json" = Raise e
                /\ e = KeyError "column_mappings"
                /\ is_ConfigNotFound e = false /\ is_ConfigMalformed e = false)
  /\ (exists e, init load_examples_fs "list.json" = Raise e
                /\ e = TypeError
                /\ is_ConfigNotFound e = false /\ is_ConfigMalformed e = false).
Proof.
  split; [|split; [|split]].
  - apply (proj1 (init_error_kinds load_examples_fs "missing.json")). reflexivity.
  - apply (proj1 (proj2 (init_error_kinds load_examples_fs "garbled.json"))).
    reflexivity.
  - apply (proj1 (proj2 (proj2 (init_error_kinds load_examples_fs "db_metadata.json")))
             [("columns", JObject [])]); reflexivity.
  - apply (proj2 (proj2 (proj2 (init_error_kinds load_examples_fs "list.json")))
             (JArray [])); [reflexivity|discriminate].
Defined.

(** ** Renaming the columns *)

Lemma get_column_mapping_NoDup self :
  NoDup (map fst self) ->
  get_column_mapping self = map (fun entry => (fst entry, new_name (snd entry))) self.
Proof.
  intros Hnd. unfold get_column_mapping. apply dict_of_NoDup.
  rewrite map_map. exact Hnd.
Qed.

Lemma dict_get_map_new_name self label :
  dict_get label (map (fun entry => (fst entry, new_name (snd entry))) self)
  = option_map new_name (dict_get label self).
Proof.
  induction self as [|[k info] self IH]; simpl; [done|].
  by destruct (String.eqb k label).
Qed.

Lemma dict_get_filter_keys {V} (p : string -> bool) (label : string) (d : dict V) :
  dict_get label (List.filter (fun kv => p (fst kv)) d)
  = if p label then dict_get label d else None.
Proof.
  induction d as [|[k v] d IH]; simpl; [by destruct (p label)|].
  destruct (p k) eqn:Hk; simpl.
  - destruct (String.eqb_spec k label) as [->|Hne]; [by rewrite Hk|exact IH].
  - destruct (String.eqb_spec k label) as [->|Hne]; [by rewrite IH, Hk|exact IH].
Qed.

Lemma filter_keys_sublist {V} (p : string -> bool) (d : dict V) :
  forall k, In k (map fst (List.filter (fun kv => p (fst kv)) d)) -> In k (map fst d).
Proof.
  intros k (kv & <- & Hin)%in_map_iff. apply filter_In in Hin as [Hin _].
  by apply in_map.
Qed.

Lemma filter_keys_NoDup {V} (p : string -> bool) (d : dict V) :
  NoDup (map fst d) -> NoDup (map fst (List.filter (fun kv => p (fst kv)) d)).
Proof.
  induction d as [|[k v] d IH]; simpl; [done|].
  intros [Hk Hnd]%NoDup_cons. destruct (p k); simpl; [|by apply IH].
  apply NoDup_cons. split; [|by apply IH].
  intros Hin%list_elem_of_In. apply Hk, list_elem_of_In.
  by apply (filter_keys_sublist p d).
Qed.

(** The comprehension of line 83, run in a world where [df] is a table. *)
Lemma existing_mapping_loop df cols w (column_mapping : dict string) : forall existing,
  heap w !! df = Some (DataFrame cols) ->
  NoDup (map fst (existing ++ column_mapping)) ->
  for_each column_mapping
    (fun existing kv =>
       cols <- read_frame df ;;
       ret (if has_column (fst kv) cols
            then dict_set (fst kv) (snd kv) existing
            else existing))
    existing w
  = (Return (existing
             ++ List.filter (fun kv => has_column (fst kv) cols) column_mapping), w).
Proof.
  induction column_mapping as [|[k v] column_mapping IH]; intros existing Hdf Hnd.
  - simpl. by rewrite app_nil_r.
  - cbn [for_each]. unfold bind at 1. unfold bind at 1.
    rewrite (read_frame_spec _ _ _ Hdf). unfold ret at 1. cbn [fst snd List.filter].
    destruct (has_column k cols).
    + rewrite dict_set_fresh.
      * rewrite IH; [by rewrite <- app_assoc|done|by rewrite <- app_assoc].
      * rewrite map_app in Hnd. apply NoDup_app in Hnd as (_ & Hdis & _).
        intros Hin. apply (Hdis k); [by apply list_elem_of_In|]. simpl. by left.
    + rewrite IH; [done|done|].
      rewrite map_app in *. simpl in Hnd.
      apply NoDup_app in Hnd as (H1 & Hdis & [_ H2]%NoDup_cons).
      apply NoDup_app. split; [done|]. split; [|done].
      intros x Hx Hx'. apply (Hdis x Hx). by right.
Qed.

Lemma filter_map_filter self (p : string -> bool) :
  List.filter (fun kv : string * string => p (fst kv))
    (map (fun entry : string * column_info => (fst entry, new_name (snd entry)))
       (List.filter (fun entry => p (fst entry)) self))
  = List.filter (fun kv : string * string => p (fst kv))
      (map (fun entry : string * column_info => (fst entry, new_name (snd entry))) self).
Proof.
  induction self as [|[k info] self IH]; simpl; [done|].
  destruct (p k) eqn:Hk; simpl; rewrite ?Hk, IH; done.
Qed.

Lemma print_lines {A} (f : A -> string) (xs : list A) : forall w,
  for_each xs (fun _ x => print (f x)) tt w
  = (Return tt, World (heap w) (stdout w ++ map f xs)).
Proof.
  induction xs as [|x xs IH]; intros w; simpl.
  - rewrite app_nil_r. by destruct w.
  - unfold bind at 1. cbn [print]. rewrite IH. simpl. by rewrite <- app_assoc.
Qed.

Lemma rename_loop mapping w0 cols : forall acc w,
  heap w0 ⊆ heap w ->
  Forall (fun c => exists vs, heap w0 !! snd c = Some (Series vs)) cols ->
  exists new w',
    for_each cols
      (fun acc c => l <- copy (snd c) ;; ret (acc ++ [(rename_label mapping (fst c), l)]))
      acc w
    = (Return (acc ++ new), w')
    /\ heap w ⊆ heap w'
    /\ stdout w' = stdout w
    /\ Forall2 (fun c c' =>
                  fst c' = rename_label mapping (fst c)
                  /\ heap w0 !! snd c' = None
                  /\ exists vs, heap w0 !! snd c = Some (Series vs)
                                /\ heap w' !! snd c' = Some (Series vs))
               cols new.
Proof.
  induction cols as [|c cols IH]; intros acc w Hsub Hall.
  - exists [], w. simpl. rewrite app_nil_r. by repeat split.
  - apply Forall_cons in Hall as [(vs & Hc) Hall].
    assert (Hc' : heap w !! snd c = Some (Series vs)) by exact (lookup_weaken _ _ _ _ Hc Hsub).
    destruct (copy_spec (snd c) vs w Hc') as (l & Hcopy & Hl).
    set (w1 := World (<[l := Series vs]> (heap w)) (stdout w)) in *.
    assert (Hsub1 : heap w ⊆ heap w1) by (by apply heap_grows).
    destruct (IH (acc ++ [(rename_label mapping (fst c), l)]) w1)
      as (new & w' & Hloop & Hsub' & Hout & Hnew); [by etrans|done|].
    exists ((rename_label mapping (fst c), l) :: new), w'.
    split; [|split; [by etrans|split; [done|]]].
    + cbn [for_each]. unfold bind at 1. unfold bind at 1. rewrite Hcopy.
      unfold ret at 1. rewrite Hloop. by rewrite <- app_assoc.
    + constructor; [|done]. simpl. split; [done|]. split.
      * destruct (heap w0 !! l) eqn:E; [|done].
        rewrite (lookup_weaken _ _ _ _ E Hsub) in Hl. done.
      * exists vs. split; [done|].
        apply (lookup_weaken (heap w1)); [apply lookup_insert_eq|done].
Qed.

Lemma rename_spec df mapping w cols :
  is_table w df cols ->
  exists df' w' cols',
    rename df mapping w = (Return df', w')
    /\ heap w' !! df' = Some (DataFrame cols')
    /\ heap w !! df' = None
    /\ heap w ⊆ heap w'
    /\ stdout w' = stdout w
    /\ Forall2 (renamed_column mapping w w') cols cols'.
Proof.
  intros [Hdf _ Hall].
  destruct (rename_loop mapping w cols [] w) as (new & w1 & Hloop & Hsub & Hout & Hnew);
    [done|done|].
  destruct (alloc_spec (DataFrame new) w1) as (df' & Halloc & Hfresh).
  exists df', (World (<[df' := DataFrame new]> (heap w1)) (stdout w1)), new.
  split; [|split; [apply lookup_insert_eq|split; [|split; [|split; [done|]]]]].
  - unfold rename. unfold bind at 1. rewrite (read_frame_spec _ _ _ Hdf).
    unfold bind at 1. rewrite Hloop. exact Halloc.
  - destruct (heap w !! df') eqn:E; [|done].
    rewrite (lookup_weaken _ _ _ _ E Hsub) in Hfresh. done.
  - simpl. etrans; [exact Hsub|]. by apply heap_grows.
  - eapply Forall2_impl; [exact Hnew|]. intros c c' (Hlabel & Hc' & vs & Hc & Hvs).
    split; [done|]. split; [done|]. exists vs. split; [done|]. simpl.
    apply (lookup_weaken (heap w1)); [done|by apply heap_grows].
Qed.

Lemma existing_mapping_run self df cols w :
  heap w !! df = Some (DataFrame cols) ->
  NoDup (map fst self) ->
  for_each (get_column_mapping self)
    (fun existing kv =>
       cols <- read_frame df ;;
       ret (if has_column (fst kv) cols
            then dict_set (fst kv) (snd kv) existing
            else existing))
    [] w
  = (Return (existing_entries self cols), w).
Proof.
  intros Hdf Hnd. rewrite get_column_mapping_NoDup by done.
  rewrite (existing_mapping_loop df cols w _ [] Hdf); [done|].
  simpl. rewrite map_map. exact Hnd.
Qed.

(** Entries whose original name is not a label of the table take no part
    in the call. *)
Lemma rename_columns_skips_absent self df cols w :
  heap w !! df = Some (DataFrame cols) ->
  NoDup (map fst self) ->
  rename_columns (List.filter (fun entry => has_column (fst entry) cols) self) df w
  = rename_columns self df w.
Proof.
  intros Hdf Hnd.
  assert (Hnd' : NoDup (map fst (List.filter (fun entry : string * column_info =>
                                                has_column (fst entry) cols) self)))
    by exact (filter_keys_NoDup (fun k => has_column k cols) self Hnd).
  unfold rename_columns. unfold bind at 1.
  rewrite (existing_mapping_run _ df cols w Hdf Hnd').
  symmetry. unfold bind at 1.
  rewrite (existing_mapping_run _ df cols w Hdf Hnd).
  unfold existing_entries.
  by rewrite (filter_map_filter self (fun k => has_column k cols)).
Qed.

Lemma existing_entries_get self cols label :
  NoDup (map fst self) ->
  has_column label cols = true ->
  (forall info, In (label, info) self ->
     dict_get label (existing_entries self cols) = Some (new_name info))
  /\ ((forall info, ~ In (label, info) self) ->
      dict_get label (existing_entries self cols) = None).
Proof.
  intros Hnd Hlabel. unfold existing_entries.
  rewrite (dict_get_filter_keys (fun k => has_column k cols)), Hlabel.
  rewrite dict_get_map_new_name. split.
  - intros info Hin. by rewrite (dict_get_NoDup _ _ _ Hnd Hin).
  - intros Hno. destruct (dict_get label self) as [info|] eqn:E; [|done].
    apply dict_get_In in E. by destruct (Hno info).
Qed.

Lemma Forall2_with_left {A B} (P : A -> B -> Prop) (Q : A -> Prop) xs ys :
  Forall2 P xs ys -> Forall Q xs -> Forall2 (fun x y => P x y /\ Q x) xs ys.
Proof.
  induction 1 as [|x y xs ys Hxy H IH]; intros HQ; [constructor|].
  apply Forall_cons in HQ as [Hx HQ]. constructor; [done|by apply IH].
Qed.

Lemma Forall2_same {A} (P : A -> A -> Prop) xs :
  Forall (fun x => P x x) xs -> Forall2 P xs xs.
Proof. induction 1; by constructor. Qed.

Lemma labels_are_columns (cols : list (string * loc)) :
  NoDup (map fst cols) ->
  Forall (fun c => has_column (fst c) cols = true /\ dict_get (fst c) cols = Some (snd c)) cols.
Proof.
  intros Hnd. apply Forall_forall. intros [label l] Hin%list_elem_of_In. simpl.
  pose proof (dict_get_NoDup _ _ _ Hnd Hin) as Hget. split; [|done].
  destruct (has_column label cols) eqn:E; [done|].
  apply has_column_false in E. congruence.
Qed.

(** What [rename_columns] does to a table, with its notices. *)
Lemma rename_columns_spec self w df cols :
  is_table w df cols ->
  NoDup (map fst self) ->
  exists df' w' cols',
    rename_columns self df w = (Return df', w')
    /\ heap w' !! df' = Some (DataFrame cols')
    /\ heap w ⊆ heap w'
    /\ Forall2 (column_renamed self w w') cols cols'
    /\ stdout w' = stdout w ++ match existing_entries self cols with
                               | [] => [notice_no_match]
                               | existing => notice_renamed existing
                               end.
Proof.
  intros Htable Hnd. pose proof Htable as [Hdf Hlabels Hseries].
  pose proof (labels_are_columns cols Hlabels) as Hcols.
  unfold rename_columns. unfold bind at 1.
  rewrite (existing_mapping_run self df cols w Hdf Hnd).
  destruct (existing_entries self cols) as [|kv existing] eqn:Hex.
  - exists df, (World (heap w) (stdout w ++ [notice_no_match])), cols.
    split; [done|]. split; [done|]. split; [done|]. split; [|done].
    apply Forall2_same. rewrite Forall_forall in Hcols, Hseries |- *.
    intros c Hc. destruct (Hcols c Hc) as [Hhas _]. destruct (Hseries c Hc) as (vs & Hvs).
    destruct (existing_entries_get self cols (fst c) Hnd Hhas) as [Hyes Hno].
    rewrite Hex in Hyes, Hno. split; [|split; [|done]].
    + exists vs. unfold cells. simpl. by rewrite Hvs.
    + intros info Hin. by specialize (Hyes info Hin).
  - destruct (rename_spec df (kv :: existing) w cols Htable)
      as (df' & w1 & cols' & Hrename & Hdf' & _ & Hsub & Hout & Hrenamed).
    exists df', (World (heap w1) (stdout w ++ notice_renamed (kv :: existing))), cols'.
    split; [|split; [done|split; [done|split; [|done]]]].
    + cbv beta iota. unfold bind at 1. rewrite Hrename.
      unfold bind at 1. cbn [print]. unfold bind at 1. rewrite print_lines.
      unfold ret, notice_renamed. simpl. rewrite Hout, <- app_assoc. done.
    + rewrite <- Hex in Hrenamed.
      eapply Forall2_impl; [exact (Forall2_with_left _ _ _ _ Hrenamed Hcols)|].
      intros c c' [(Hlabel & _ & vs & Hc & Hc') [Hhas _]].
      destruct (existing_entries_get self cols (fst c) Hnd Hhas) as [Hyes Hno].
      unfold rename_label in Hlabel. split; [|split].
      * exists vs. unfold cells. simpl. by rewrite Hc, Hc'.
      * intros info Hin. by rewrite (Hyes info Hin) in Hlabel.
      * intros Habsent. by rewrite (Hno Habsent) in Hlabel.
Qed.

(** C5: on a table whose columns all have an entry in the mapping,
    [rename_columns] gives every column the new name of its entry and
    changes no cell. In general a column with an entry gets the new name, a
    column without an entry keeps its label, the cells are the same, the
    table given is not modified, and the entries whose original name is not
    a label of the table are skipped: the call is the call without them. *)
Theorem rename_columns_renames self w df cols :
  is_table w df cols ->
  NoDup (map fst self) ->
  exists df' w' cols',
    rename_columns self df w = (Return df', w')
    /\ heap w' !! df' = Some (DataFrame cols')
    /\ (forall l o, heap w !! l = Some o -> heap w' !! l = Some o)
    /\ Forall2 (column_renamed self w w') cols cols'
    /\ ((forall c, In c cols -> exists info, In (fst c, info) self) ->
        Forall2 (fun c c' =>
                   (exists info, In (fst c, info) self /\ fst c' = new_name info)
                   /\ exists vs, cells w (snd c) = Some vs /\ cells w' (snd c') = Some vs)
                cols cols')
    /\ rename_columns (List.filter (fun entry => has_column (fst entry) cols) self) df w
       = (Return df', w').
Proof.
  intros Htable Hnd.
  destruct (rename_columns_spec self w df cols Htable Hnd)
    as (df' & w' & cols' & Hrun & Hdf' & Hsub & Hcols & _).
  exists df', w', cols'. split; [done|]. split; [done|].
  split; [|split; [done|split]].
  - intros l o Hl. exact (lookup_weaken _ _ _ _ Hl Hsub).
  - intros Hall.
    assert (Hall' : Forall (fun c => exists info, In (fst c, info) self) cols).
    { apply Forall_forall. intros c Hc%list_elem_of_In. by apply Hall. }
    eapply Forall2_impl; [exact (Forall2_with_left _ _ _ _ Hcols Hall')|].
    intros c c' [(Hcells & Hyes & _) (info & Hin)]. split; [|done].
    exists info. split; [done|by apply Hyes].
  - rewrite <- Hrun. apply rename_columns_skips_absent; [|done]. by destruct Htable.
Qed.

Lemma example_keys_NoDup : NoDup (map fst example_mappings).
Proof. apply (bool_decide_unpack _). vm_compute. exact I. Defined.

Lemma rename_columns_renames_witness :
  exists df' w' cols',
    rename_columns example_mappings 1%positive example_world = (Return df', w')
    /\ heap w' !! df' = Some (DataFrame cols')
    /\ (forall l o, heap example_world !! l = Some o -> heap w' !! l = Some o)
    /\ Forall2 (column_renamed example_mappings example_world w')
         [("sexo", 2%positive); ("edad", 3%positive)] cols'
    /\ ((forall c, In c [("sexo", 2%positive); ("edad", 3%positive)] ->
           exists info, In (fst c, info) example_mappings) ->
        Forall2 (fun c c' =>
                   (exists info, In (fst c, info) example_mappings
                                 /\ fst c' = new_name info)
                   /\ exists vs, cells example_world (snd c) = Some vs
                                 /\ cells w' (snd c') = Some vs)
                [("sexo", 2%positive); ("edad", 3%positive)] cols')
    /\ rename_columns
         (List.filter
            (fun entry => has_column (fst entry) [("sexo", 2%positive); ("edad", 3%positive)])
            example_mappings)
         1%positive example_world
       = (Return df', w').
Proof.
  apply (rename_columns_renames example_mappings example_world 1%positive
           [("sexo", 2%positive); ("edad", 3%positive)]).
  - exact example_table_1.
  - exact example_keys_NoDup.
Defined.

(** The example table, renamed: the labels are [sex] and [age] and the
    notice lists the two pairs. *)
Example rename_columns_example :
  exists w',
    rename_columns example_mappings 1%positive example_world = (Return 9%positive, w')
    /\ heap w' !! 9%positive = Some (DataFrame [("sex", 7%positive); ("age", 8%positive)])
    /\ heap w' !! 7%positive = Some (Series [VNum 1; VNum 2; VNum 1])
    /\ stdout w' = ["Renamed 2 columns:"; "  'sexo' -> 'sex'"; "  'edad' -> 'age'"].
Proof. eexists. split; [vm_compute; reflexivity|]. repeat split. Qed.

(** X3: when no entry of the mapping names a column of the table,
    [rename_columns] returns the table it was given, prints the no-match
    notice and makes no object. *)
Theorem rename_columns_no_overlap self w df cols :
  is_table w df cols ->
  NoDup (map fst self) ->
  (forall c info, In c cols -> ~ In (fst c, info) self) ->
  rename_columns self df w
  = (Return df, World (heap w) (stdout w ++ [notice_no_match])).
Proof.
  intros [Hdf _ _] Hnd Hnone.
  assert (Hex : existing_entries self cols = []).
  { unfold existing_entries.
    destruct (List.filter _ _) as [|[k new] rest] eqn:E; [done|exfalso].
    assert (Hin : In (k, new) (List.filter (fun kv => has_column (fst kv) cols)
                     (map (fun entry => (fst entry, new_name (snd entry))) self)))
      by (rewrite E; by left).
    apply filter_In in Hin as [((k' & info) & [= <- <-] & Hin)%in_map_iff Hhas].
    simpl in *. apply has_column_true in Hhas as (l & Hl%dict_get_In).
    by apply (Hnone (k', l) info). }
  unfold rename_columns. unfold bind at 1.
  rewrite (existing_mapping_run self df cols w Hdf Hnd), Hex. reflexivity.
Qed.

Lemma rename_columns_no_overlap_witness :
  rename_columns answer_mappings 4%positive example_world
  = (Return 4%positive,
     World (heap example_world) (stdout example_world ++ [notice_no_match])).
Proof.
  apply (rename_columns_no_overlap answer_mappings example_world 4%positive
           [("sex", 5%positive); ("age", 6%positive)]).
  - exact example_table_4.
  - apply (bool_decide_unpack _). vm_compute. exact I.
  - intros c info [<-|[<-|[]]] [H|[]]; discriminate H.
Defined.

(** The worked example with string codes: a column whose category table
    is {"Y": "Yes", "N": "No"} and whose cells are the strings Y, N, Y comes
    back as "Y: Yes", "N: No", "Y: Yes". *)
Theorem apply_categorical_mapping_yes_no self w df cols name l :
  is_table w df cols ->
  dict_get name cols = Some l ->
  heap w !! l = Some (Series [VStr "Y"; VStr "N"; VStr "Y"]) ->
  dict_get name (get_categorical_columns self) = Some (Some [("Y", "Yes"); ("N", "No")]) ->
  exists r w',
    apply_categorical_mapping self df name w = (Return (Some r), w')
    /\ heap w' !! r = Some (Series [VStr "Y: Yes"; VStr "N: No"; VStr "Y: Yes"]).
Proof.
  intros [Hdf _ _] Hcol Hl Hcat.
  destruct (apply_categorical_mapping_mapped self w df cols name l _ _ Hdf Hcol Hl Hcat)
    as (r & w' & Hrun & Hr & _).
  - repeat constructor; vm_compute; discriminate.
  - exists r, w'. split; [exact Hrun|]. rewrite Hr. reflexivity.
Qed.

Lemma apply_categorical_mapping_yes_no_witness :
  exists r w',
    apply_categorical_mapping answer_mappings 1%positive "smoker" answer_world
    = (Return (Some r), w')
    /\ heap w' !! r = Some (Series [VStr "Y: Yes"; VStr "N: No"; VStr "Y: Yes"]).
Proof.
  apply (apply_categorical_mapping_yes_no answer_mappings answer_world 1%positive
           [("smoker", 2%positive)] "smoker" 2%positive).
  - split; [reflexivity| |].
    + apply (bool_decide_unpack _). vm_compute. exact I.
    + repeat constructor; eexists; reflexivity.
  - reflexivity.
  - reflexivity.
  - reflexivity.
Defined.

(** * Further properties *)

(** ** Which codes [float] rejects *)

Lemma isdigit_nonempty s : Str.isdigit s = true -> s <> EmptyString.
Proof. by destruct s. Qed.

Lemma target_None_iff code : target code = None <-> rejected_code code = true.
Proof.
  unfold target, rejected_code, numeric_guard, PyFloat.float, PyFloat.well_formed,
    plain_decimal.
  destruct (Str.isdigit (Str.remove_dots code)) eqn:Hguard; simpl; [|done].
  apply isdigit_nonempty in Hguard. apply String.eqb_neq in Hguard. rewrite Hguard.
  rewrite andb_true_r.
  destruct (Str.all_chars _ code && Nat.leb (Str.count_dots code) 1); simpl; split; done.
Qed.

Lemma codes_readable_iff pairs :
  codes_readable pairs <-> Forall (fun item => rejected_code (fst item) = false) pairs.
Proof.
  unfold codes_readable. apply Forall_iff. intros item.
  rewrite target_None_iff. by destruct (rejected_code (fst item)).
Qed.

(** The loop stops at the first code that [float] rejects. *)
Lemma for_each_substitute_first_rejected pre code description post : forall series vs w,
  heap w !! series = Some (Series vs) ->
  codes_readable pre ->
  target code = None ->
  exists w',
    for_each (pre ++ (code, description) :: post) substitute series w
    = (Raise (float_error code), w')
    /\ heap w ⊆ heap w'
    /\ stdout w' = stdout w.
Proof.
  induction pre as [|[c d] pre IH]; intros series vs w Hs Hok Hbad.
  - exists w. split; [|done]. cbn [app for_each]. unfold bind at 1.
    unfold substitute, target in *.
    destruct (Str.isdigit (Str.remove_dots code)); [|done].
    by destruct (PyFloat.float code).
  - apply Forall_cons in Hok as [Hc Hok]. simpl in Hc.
    destruct (target c) as [t|] eqn:Ht; [|done].
    destruct (substitute_readable series c d t vs w Hs Ht) as (l & Hrun & Hfresh).
    destruct (IH l (map (fun v => rewrite_cell v (c, d)) vs)
                (World (<[l := Series (map (fun v => rewrite_cell v (c, d)) vs)]>
                          (heap w)) (stdout w)))
      as (w' & Hloop & Hsub & Hout); [apply lookup_insert_eq|done|done|].
    exists w'. split; [|split; [|done]].
    + cbn [app for_each]. unfold bind at 1. rewrite Hrun. exact Hloop.
    + etrans; [|exact Hsub]. by apply heap_grows.
Qed.

Lemma first_rejected pairs :
  Exists (fun item => rejected_code (fst item) = true) pairs ->
  exists pre code description post,
    pairs = pre ++ (code, description) :: post
    /\ codes_readable pre
    /\ target code = None.
Proof.
  induction pairs as [|[c d] pairs IH]; intros Hex; [by apply Exists_nil in Hex|].
  destruct (rejected_code c) eqn:Hc.
  - exists [], c, d, pairs. split; [done|]. split; [constructor|].
    by apply target_None_iff.
  - apply Exists_cons in Hex as [Hex|Hex]; [simpl in Hex; congruence|].
    destruct (IH Hex) as (pre & code & description & post & -> & Hpre & Hbad).
    exists ((c, d) :: pre), code, description, post. split; [done|]. split; [|done].
    constructor; [|done]. simpl. rewrite target_None_iff. congruence.
Qed.

Lemma apply_categorical_mapping_loop self w df cols name l vs pairs :
  heap w !! df = Some (DataFrame cols) ->
  dict_get name cols = Some l ->
  heap w !! l = Some (Series vs) ->
  dict_get name (get_categorical_columns self) = Some (Some pairs) ->
  exists c,
    heap w !! c = None
    /\ apply_categorical_mapping self df name w
       = match for_each pairs substitute c
                 (World (<[c := Series vs]> (heap w)) (stdout w)) with
         | (Return r, w') => (Return (Some r), w')
         | (Raise e, w') => (Raise e, w')
         end.
Proof.
  intros Hdf Hcol Hl Hcat.
  destruct (copy_spec l vs w Hl) as (c & Hcopy & Hc).
  exists c. split; [done|].
  unfold apply_categorical_mapping, bind.
  rewrite (read_frame_spec _ _ _ Hdf).
  assert (Hhas : has_column name cols = true).
  { destruct (has_column name cols) eqn:E; [done|].
    apply has_column_false in E. congruence. }
  rewrite Hhas, Hcat. cbn [negb]. unfold getitem, bind.
  rewrite (read_frame_spec _ _ _ Hdf), Hcol. unfold ret at 1.
  rewrite Hcopy. cbn [items]. unfold ret at 1.
  by destruct (for_each pairs substitute c _) as [[r|e] w'].
Qed.

Lemma apply_categorical_mapping_rejects self w df cols name l vs pre code description post :
  heap w !! df = Some (DataFrame cols) ->
  dict_get name cols = Some l ->
  heap w !! l = Some (Series vs) ->
  dict_get name (get_categorical_columns self)
  = Some (Some (pre ++ (code, description) :: post)) ->
  codes_readable pre ->
  target code = None ->
  exists w',
    apply_categorical_mapping self df name w = (Raise (float_error code), w')
    /\ heap w ⊆ heap w'
    /\ stdout w' = stdout w.
Proof.
  intros Hdf Hcol Hl Hcat Hpre Hbad.
  destruct (apply_categorical_mapping_loop self w df cols name l vs _ Hdf Hcol Hl Hcat)
    as (c & Hc & ->).
  destruct (for_each_substitute_first_rejected pre code description post c vs
              (World (<[c := Series vs]> (heap w)) (stdout w)))
    as (w' & -> & Hsub & Hout); [apply lookup_insert_eq|done|done|].
  exists w'. split; [done|]. split; [|done].
  etrans; [|exact Hsub]. by apply heap_grows.
Qed.

(** X6: on a column with a category table, the call raises exactly when
    some code of the table passes the guard of line 124 and is not a plain
    decimal (it has two or more decimal points, or a digit that is not a
    decimal digit); it returns a Series exactly when there is no such code.
    The cells play no part in it. *)
Theorem apply_categorical_mapping_raises_iff self w df cols name l vs pairs :
  is_table w df cols ->
  dict_get name cols = Some l ->
  heap w !! l = Some (Series vs) ->
  dict_get name (get_categorical_columns self) = Some (Some pairs) ->
  ((exists e w', apply_categorical_mapping self df name w = (Raise e, w'))
   <-> Exists (fun item => rejected_code (fst item) = true) pairs)
  /\ ((exists r w', apply_categorical_mapping self df name w = (Return (Some r), w'))
      <-> Forall (fun item => rejected_code (fst item) = false) pairs).
Proof.
  intros [Hdf _ _] Hcol Hl Hcat.
  assert (Hraise : Exists (fun item => rejected_code (fst item) = true) pairs ->
                   exists e w', apply_categorical_mapping self df name w = (Raise e, w')).
  { intros (pre & code & d & post & -> & Hpre & Hbad)%first_rejected.
    destruct (apply_categorical_mapping_rejects self w df cols name l vs pre code d post)
      as (w' & Hrun & _); try done. by exists (float_error code), w'. }
  assert (Hret : Forall (fun item => rejected_code (fst item) = false) pairs ->
                 exists r w', apply_categorical_mapping self df name w
                              = (Return (Some r), w')).
  { intros Hok%codes_readable_iff.
    destruct (apply_categorical_mapping_mapped self w df cols name l vs pairs)
      as (r & w' & Hrun & _); try done. by exists r, w'. }
  assert (Hdec : Forall (fun item => rejected_code (fst item) = false) pairs
                 \/ Exists (fun item => rejected_code (fst item) = true) pairs).
  { clear. induction pairs as [|item pairs [IH|IH]]; [by left| |by right; right].
    destruct (rejected_code (fst item)) eqn:E; [right; by left|left; by constructor]. }
  split; split; try done.
  - intros (e & w' & Hrun). destruct Hdec as [Hok|Hbad]; [|done].
    destruct (Hret Hok) as (r & w2 & Hrun'). congruence.
  - intros (r & w' & Hrun). destruct Hdec as [Hok|Hbad]; [done|].
    destruct (Hraise Hbad) as (e & w2 & Hrun'). congruence.
Qed.

Lemma apply_categorical_mapping_raises_iff_witness :
  ((exists e w',
      apply_categorical_mapping rejected_codes_mappings 4%positive "age" example_world
      = (Raise e, w'))
   <-> Exists (fun item => rejected_code (fst item) = true)
         [("30", "thirty"); ("4.1.0", "forty-one");
          (String (ascii_of_nat 178) EmptyString, "squared")])
  /\ ((exists r w',
         apply_categorical_mapping rejected_codes_mappings 4%positive "age" example_world
         = (Return (Some r), w'))
      <-> Forall (fun item => rejected_code (fst item) = false)
            [("30", "thirty"); ("4.1.0", "forty-one");
             (String (ascii_of_nat 178) EmptyString, "squared")]).
Proof.
  apply (apply_categorical_mapping_raises_iff rejected_codes_mappings example_world
           4%positive [("sex", 5%positive); ("age", 6%positive)] "age" 6%positive
           [VNum 30; VNum 41; VNum 25]).
  - exact example_table_4.
  - reflexivity.
  - reflexivity.
  - reflexivity.
Defined.

(** X7: the [ValueError] names the first code, in the order of the category
    table, that [float] rejects; the codes after it are not tried, nothing
    is printed and no object that existed is changed. *)
Theorem apply_categorical_mapping_first_rejected_code
    self w df cols name l vs pre code description post :
  is_table w df cols ->
  dict_get name cols = Some l ->
  heap w !! l = Some (Series vs) ->
  dict_get name (get_categorical_columns self)
  = Some (Some (pre ++ (code, description) :: post)) ->
  Forall (fun item => rejected_code (fst item) = false) pre ->
  rejected_code code = true ->
  exists w',
    apply_categorical_mapping self df name w
    = (Raise (ValueError ("could not convert string to float: '" +:+ code +:+ "'")), w')
    /\ stdout w' = stdout w
    /\ (forall l' o, heap w !! l' = Some o -> heap w' !! l' = Some o).
Proof.
  intros [Hdf _ _] Hcol Hl Hcat Hpre%codes_readable_iff Hbad%target_None_iff.
  destruct (apply_categorical_mapping_rejects self w df cols name l vs pre code
              description post)
    as (w' & Hrun & Hsub & Hout); try done.
  exists w'. split; [done|]. split; [done|].
  intros l' o Hl'. exact (lookup_weaken _ _ _ _ Hl' Hsub).
Qed.

Lemma apply_categorical_mapping_first_rejected_code_witness :
  exists w',
    apply_categorical_mapping rejected_codes_mappings 4%positive "age" example_world
    = (Raise (ValueError ("could not convert string to float: '" +:+ "4.1.0" +:+ "'")), w')
    /\ stdout w' = stdout example_world
    /\ (forall l' o, heap example_world !! l' = Some o -> heap w' !! l' = Some o).
Proof.
  apply (apply_categorical_mapping_first_rejected_code rejected_codes_mappings
           example_world 4%positive [("sex", 5%positive); ("age", 6%positive)] "age"
           6%positive [VNum 30; VNum 41; VNum 25]
           [("30", "thirty")] "4.1.0" "forty-one"
           [(String (ascii_of_nat 178) EmptyString, "squared")]).
  - exact example_table_4.
  - reflexivity.
  - reflexivity.
  - reflexivity.
  - repeat constructor.
  - reflexivity.
Defined.

(** ** What the substitution keeps *)

Lemma target_cases code :
  target code = None
  \/ (numeric_guard code = true /\ exists x, target code = Some (VNum x))
  \/ (numeric_guard code = false /\ target code = Some (VStr code)).
Proof.
  unfold target, numeric_guard. destruct (Str.isdigit (Str.remove_dots code)).
  - destruct (PyFloat.float code) as [x|]; [|by left].
    right. left. split; [done|]. by exists x.
  - right. by right.
Qed.

Lemma code_matches_None code : code_matches code VNone = false.
Proof.
  unfold code_matches.
  destruct (target_cases code) as [->|[(_ & x & ->)|(_ & ->)]]; done.
Qed.

Lemma code_matches_nan code : code_matches code (VNum nan) = false.
Proof.
  unfold code_matches.
  destruct (target_cases code) as [->|[(_ & x & ->)|(_ & ->)]]; try done.
  simpl. rewrite FloatAxioms.eqb_spec. reflexivity.
Qed.



Lemma rewrite_cells_length pairs vs : length (rewrite_cells pairs vs) = length vs.
Proof. unfold rewrite_cells. apply length_map. Qed.

Lemma rewrite_cells_Forall2 (R : value -> value -> Prop) pairs vs :
  (forall v, In v vs -> R v (foldl rewrite_cell v pairs)) ->
  Forall2 R vs (rewrite_cells pairs vs).
Proof.
  unfold rewrite_cells. induction vs as [|v vs IH]; intros H; simpl; constructor.
  - apply H. by left.
  - apply IH. intros v' Hv'. apply H. by right.
Qed.


(** X8: on a column whose codes [float] can read, the Series returned has
    as many cells as the column, in the same order; each cell is the cell
    of the column or the "code: description" string of an entry of the
    category table; a cell that no code matches is returned as it is; and
    nothing is printed. *)
Theorem apply_categorical_mapping_cellwise self w df cols name l vs pairs :
  is_table w df cols ->
  dict_get name cols = Some l ->
  heap w !! l = Some (Series vs) ->
  dict_get name (get_categorical_columns self) = Some (Some pairs) ->
  codes_readable pairs ->
  exists r w' vs',
    apply_categorical_mapping self df name w = (Return (Some r), w')
    /\ heap w' !! r = Some (Series vs')
    /\ length vs' = length vs
    /\ Forall2 (fun v v' =>
                  (v' = v \/ exists item, In item pairs /\ v' = rewritten item)
                  /\ ((forall item, In item pairs -> code_matches (fst item) v = false) ->
                      v' = v))
               vs vs'
    /\ stdout w' = stdout w.
Proof.
  intros [Hdf _ _] Hcol Hl Hcat Hok.
  destruct (apply_categorical_mapping_mapped self w df cols name l vs pairs)
    as (r & w' & Hrun & Hr & _ & _ & Hout); try done.
  exists r, w', (rewrite_cells pairs vs).
  split; [done|]. split; [done|]. split; [apply rewrite_cells_length|]. split; [|done].
  apply rewrite_cells_Forall2. intros v _. split.
  - apply foldl_rewrite_cell_cases.
  - apply foldl_rewrite_cell_unmatched.
Qed.

Lemma apply_categorical_mapping_cellwise_witness :
  exists r w' vs',
    apply_categorical_mapping example_mappings 4%positive "sex" example_world
    = (Return (Some r), w')
    /\ heap w' !! r = Some (Series vs')
    /\ length vs' = length [VNum 1; VNum 2; VNum 1]
    /\ Forall2 (fun v v' =>
                  (v' = v \/ exists item, In item [("1", "Male"); ("2", "Female")]
                                          /\ v' = rewritten item)
                  /\ ((forall item, In item [("1", "Male"); ("2", "Female")] ->
                         code_matches (fst item) v = false) ->
                      v' = v))
               [VNum 1; VNum 2; VNum 1] vs'
    /\ stdout w' = stdout example_world.
Proof.
  apply (apply_categorical_mapping_cellwise example_mappings example_world
           4%positive [("sex", 5%positive); ("age", 6%positive)] "sex" 5%positive
           [VNum 1; VNum 2; VNum 1] [("1", "Male"); ("2", "Female")]).
  - exact example_table_4.
  - reflexivity.
  - reflexivity.
  - reflexivity.
  - repeat constructor; vm_compute; discriminate.
Defined.

(** X9: a missing cell, [None] or NaN, is never rewritten, whatever the
    codes of the category table are. *)
Theorem apply_categorical_mapping_keeps_missing self w df cols name l vs pairs :
  is_table w df cols ->
  dict_get name cols = Some l ->
  heap w !! l = Some (Series vs) ->
  dict_get name (get_categorical_columns self) = Some (Some pairs) ->
  codes_readable pairs ->
  exists r w' vs',
    apply_categorical_mapping self df name w = (Return (Some r), w')
    /\ heap w' !! r = Some (Series vs')
    /\ Forall2 (fun v v' => is_missing v -> v' = v) vs vs'.
Proof.
  intros [Hdf _ _] Hcol Hl Hcat Hok.
  destruct (apply_categorical_mapping_mapped self w df cols name l vs pairs)
    as (r & w' & Hrun & Hr & _); try done.
  exists r, w', (rewrite_cells pairs vs). split; [done|]. split; [done|].
  apply rewrite_cells_Forall2. intros v _ [->| ->];
    apply foldl_rewrite_cell_unmatched; intros item _.
  - apply code_matches_None.
  - apply code_matches_nan.
Qed.

Lemma example_table_strings :
  is_table string_cells_world 4%positive [("sex", 5%positive); ("age", 6%positive)].
Proof.
  split; [reflexivity| |].
  - apply (bool_decide_unpack _). vm_compute. exact I.
  - repeat constructor; eexists; reflexivity.
Defined.

Lemma apply_categorical_mapping_keeps_missing_witness :
  exists r w' vs',
    apply_categorical_mapping age_groups_mappings 4%positive "age" string_cells_world
    = (Return (Some r), w')
    /\ heap w' !! r = Some (Series vs')
    /\ Forall2 (fun v v' => is_missing v -> v' = v) [VNum 30; VNum nan; VNum 25] vs'.
Proof.
  apply (apply_categorical_mapping_keeps_missing age_groups_mappings string_cells_world
           4%positive [("sex", 5%positive); ("age", 6%positive)] "age" 6%positive
           [VNum 30; VNum nan; VNum 25] [("30", "thirty"); ("25", "twenty-five")]).
  - exact example_table_strings.
  - reflexivity.
  - reflexivity.
  - reflexivity.
  - repeat constructor; vm_compute; discriminate.
Defined.

Example age_groups_example :
  exists r w',
    apply_categorical_mapping age_groups_mappings 4%positive "age" string_cells_world
    = (Return (Some r), w')
    /\ heap w' !! r = Some (Series [VStr "30: thirty"; VNum nan; VStr "25: twenty-five"]).
Proof. eexists _, _. split; vm_compute; reflexivity. Qed.



(** ** The order of the codes *)

Lemma first_match_split (pairs : list (string * string)) v : forall item,
  In item pairs ->
  code_matches (fst item) v = true ->
  exists pre first post,
    pairs = pre ++ first :: post
    /\ (forall i, In i pre -> code_matches (fst i) v = false)
    /\ code_matches (fst first) v = true.
Proof.
  induction pairs as [|p pairs IH]; intros item Hin Hm; [done|].
  destruct (code_matches (fst p) v) eqn:Hp.
  - exists [], p, pairs. by repeat split.
  - destruct Hin as [->|Hin]; [congruence|].
    destruct (IH item Hin Hm) as (pre & first & post & -> & Hpre & Hfirst).
    exists (p :: pre), first, post. split; [done|]. split; [|done].
    intros i [<-|Hi]; [done|by apply Hpre].
Qed.

Lemma foldl_rewrite_cell_exclusive pairs v item :
  no_collision pairs ->
  codes_exclusive pairs ->
  In item pairs ->
  code_matches (fst item) v = true ->
  foldl rewrite_cell v pairs = rewritten item.
Proof.
  intros Hno Hex Hin Hm.
  destruct (first_match_split pairs v item Hin Hm)
    as (pre & first & post & Hsplit & Hpre & Hfirst).
  assert (Hfirst_in : In first pairs).
  { rewrite Hsplit. apply in_app_iff. right. by left. }
  assert (first = item) as -> by exact (Hex first item v Hfirst_in Hin Hfirst Hm).
  rewrite Hsplit. apply foldl_rewrite_cell_first_match; try done.
  intros i Hi. apply Hno; [|done]. rewrite Hsplit. apply in_app_iff. right. by right.
Qed.

Lemma foldl_rewrite_cell_permutation pairs pairs' v :
  pairs ≡ₚ pairs' ->
  no_collision pairs ->
  codes_exclusive pairs ->
  foldl rewrite_cell v pairs = foldl rewrite_cell v pairs'.
Proof.
  intros Hperm Hno Hex.
  assert (Hin : forall i, In i pairs <-> In i pairs').
  { intros i. rewrite <- !list_elem_of_In. by rewrite Hperm. }
  assert (Hno' : no_collision pairs').
  { intros i i' Hi Hi'. apply Hno; by apply Hin. }
  assert (Hex' : codes_exclusive pairs').
  { intros i i' v' Hi Hi'. apply Hex; by apply Hin. }
  destruct (existsb (fun i => code_matches (fst i) v) pairs) eqn:E.
  - apply existsb_exists in E as (item & Hitem & Hm).
    rewrite (foldl_rewrite_cell_exclusive pairs v item) by done.
    symmetry. apply foldl_rewrite_cell_exclusive; try done. by apply Hin.
  - assert (Hnone : forall i, In i pairs -> code_matches (fst i) v = false).
    { intros i Hi. destruct (code_matches (fst i) v) eqn:Hm; [|done].
      assert (existsb (fun i => code_matches (fst i) v) pairs = true)
        by (apply existsb_exists; eauto).
      congruence. }
    rewrite !foldl_rewrite_cell_unmatched; try done.
    intros i Hi. by apply Hnone, Hin.
Qed.

Lemma codes_readable_permutation pairs pairs' :
  pairs ≡ₚ pairs' -> codes_readable pairs -> codes_readable pairs'.
Proof. intros Hperm. unfold codes_readable. by rewrite Hperm. Qed.

(** X11: when no code matches a rewritten string and no two codes match the
    same cell, the order of the category table does not matter: two tables
    with the same entries in different orders give the same cells. *)
Theorem apply_categorical_mapping_order_independent
    self self' w df cols name l vs pairs pairs' :
  is_table w df cols ->
  dict_get name cols = Some l ->
  heap w !! l = Some (Series vs) ->
  dict_get name (get_categorical_columns self) = Some (Some pairs) ->
  dict_get name (get_categorical_columns self') = Some (Some pairs') ->
  pairs ≡ₚ pairs' ->
  codes_readable pairs ->
  no_collision pairs ->
  codes_exclusive pairs ->
  exists r w1 r' w2 vs',
    apply_categorical_mapping self df name w = (Return (Some r), w1)
    /\ apply_categorical_mapping self' df name w = (Return (Some r'), w2)
    /\ heap w1 !! r = Some (Series vs')
    /\ heap w2 !! r' = Some (Series vs').
Proof.
  intros [Hdf _ _] Hcol Hl Hcat Hcat' Hperm Hok Hno Hex.
  destruct (apply_categorical_mapping_mapped self w df cols name l vs pairs)
    as (r & w1 & Hrun & Hr & _); try done.
  destruct (apply_categorical_mapping_mapped self' w df cols name l vs pairs')
    as (r' & w2 & Hrun' & Hr' & _); try done.
  { by apply (codes_readable_permutation pairs). }
  exists r, w1, r', w2, (rewrite_cells pairs vs).
  split; [done|]. split; [done|]. split; [done|].
  rewrite Hr'. f_equal. f_equal. unfold rewrite_cells. apply map_ext. intros v.
  symmetry. by apply foldl_rewrite_cell_permutation.
Qed.

Lemma answer_code_matches code v :
  numeric_guard code = false -> code_matches code v = true -> v = VStr code.
Proof.
  intros Hg. unfold code_matches.
  destruct (target_cases code) as [->|[(Hg' & _)|(_ & ->)]]; [done|congruence|].
  destruct v as [x|s|]; simpl; try done. by intros ->%String.eqb_eq.
Qed.

Lemma answer_codes_exclusive : codes_exclusive [("Y", "Yes"); ("N", "No")].
Proof.
  intros item item' v [<-|[<-|[]]] [<-|[<-|[]]] H1 H2; try done;
    apply answer_code_matches in H1; try done;
    apply answer_code_matches in H2; try done; simpl in *; congruence.
Defined.

Lemma answer_no_collision : no_collision [("Y", "Yes"); ("N", "No")].
Proof. intros item item' [<-|[<-|[]]] [<-|[<-|[]]]; reflexivity. Defined.

Lemma answer_table : is_table answer_world 1%positive [("smoker", 2%positive)].
Proof.
  split; [reflexivity| |].
  - apply (bool_decide_unpack _). vm_compute. exact I.
  - repeat constructor; eexists; reflexivity.
Defined.

Lemma apply_categorical_mapping_order_independent_witness :
  exists r w1 r' w2 vs',
    apply_categorical_mapping answer_mappings 1%positive "smoker" answer_world
    = (Return (Some r), w1)
    /\ apply_categorical_mapping reversed_answer_mappings 1%positive "smoker" answer_world
       = (Return (Some r'), w2)
    /\ heap w1 !! r = Some (Series vs')
    /\ heap w2 !! r' = Some (Series vs').
Proof.
  apply (apply_categorical_mapping_order_independent answer_mappings
           reversed_answer_mappings answer_world 1%positive [("smoker", 2%positive)]
           "smoker" 2%positive [VStr "Y"; VStr "N"; VStr "Y"]
           [("Y", "Yes"); ("N", "No")] [("N", "No"); ("Y", "Yes")]).
  - exact answer_table.
  - reflexivity.
  - reflexivity.
  - reflexivity.
  - reflexivity.
  - apply perm_swap.
  - repeat constructor; vm_compute; discriminate.
  - exact answer_no_collision.
  - exact answer_codes_exclusive.
Defined.

(** ** Renaming, again *)

Lemma existing_entries_nil self cols :
  (forall c, In c cols -> dict_get (fst c) self = None) ->
  existing_entries self cols = [].
Proof.
  intros Hnone. unfold existing_entries.
  destruct (List.filter _ _) as [|[k new] rest] eqn:E; [done|exfalso].
  assert (Hin : In (k, new) (List.filter (fun kv => has_column (fst kv) cols)
                   (map (fun entry => (fst entry, new_name (snd entry))) self)))
    by (rewrite E; by left).
  apply filter_In in Hin as [((k' & info) & [= <- <-] & Hin)%in_map_iff Hhas].
  simpl in *. apply has_column_true in Hhas as (l & Hl%dict_get_In).
  specialize (Hnone (k', l) Hl). simpl in Hnone.
  apply dict_get_None_keys in Hnone. apply Hnone.
  change k' with (fst (k', info)). by apply in_map.
Qed.

Lemma rename_columns_nothing self w df cols :
  heap w !! df = Some (DataFrame cols) ->
  NoDup (map fst self) ->
  existing_entries self cols = [] ->
  rename_columns self df w
  = (Return df, World (heap w) (stdout w ++ [notice_no_match])).
Proof.
  intros Hdf Hnd Hex. unfold rename_columns. unfold bind at 1.
  rewrite (existing_mapping_run self df cols w Hdf Hnd), Hex. reflexivity.
Qed.

Lemma column_renamed_label self w w' c c' :
  column_renamed self w w' c c' -> fst c' = new_label self (fst c).
Proof.
  intros (_ & Hyes & Hno). unfold new_label.
  destruct (dict_get (fst c) self) as [info|] eqn:E.
  - apply Hyes. by apply dict_get_In.
  - apply Hno. intros info Hin. apply dict_get_None_keys in E. apply E.
    change (fst c) with (fst (fst c, info)). by apply in_map.
Qed.


Lemma Forall2_In_right {A B} (R : A -> B -> Prop) xs ys y :
  Forall2 R xs ys -> In y ys -> exists x, In x xs /\ R x y.
Proof.
  induction 1 as [|x0 y0 xs ys Hxy _ IH]; intros Hin; [done|].
  destruct Hin as [->|Hin].
  - exists x0. split; [by left|done].
  - destruct (IH Hin) as (x & Hx & HR). exists x. split; [by right|done].
Qed.

(** X12: when no new name of the mapping is itself an original name,
    renaming a renamed table changes nothing: the second call finds no
    column to rename, prints the no-match notice and returns the very
    table it was given. *)
Theorem rename_columns_twice self w df cols :
  is_table w df cols ->
  NoDup (map fst self) ->
  (forall old info, In (old, info) self -> ~ In (new_name info) (map fst self)) ->
  exists df' w',
    rename_columns self df w = (Return df', w')
    /\ rename_columns self df' w'
       = (Return df', World (heap w') (stdout w' ++ [notice_no_match])).
Proof.
  intros Htable Hnd Hnew.
  destruct (rename_columns_spec self w df cols Htable Hnd)
    as (df' & w' & cols' & Hrun & Hdf' & _ & Hcols & _).
  exists df', w'. split; [done|].
  apply rename_columns_nothing with cols'; [done|done|].
  apply existing_entries_nil. intros c' Hc'.
  destruct (Forall2_In_right _ _ _ _ Hcols Hc') as (c & _ & Hc).
  rewrite (column_renamed_label _ _ _ _ _ Hc). unfold new_label.
  destruct (dict_get (fst c) self) as [info|] eqn:E; [|exact E].
  apply dict_get_None_keys. apply (Hnew (fst c) info). by apply dict_get_In.
Qed.

Lemma rename_columns_twice_witness :
  exists df' w',
    rename_columns example_mappings 1%positive example_world = (Return df', w')
    /\ rename_columns example_mappings df' w'
       = (Return df', World (heap w') (stdout w' ++ [notice_no_match])).
Proof.
  apply (rename_columns_twice example_mappings example_world 1%positive
           [("sexo", 2%positive); ("edad", 3%positive)]).
  - exact example_table_1.
  - exact example_keys_NoDup.
  - intros old info [[= <- <-]|[[= <- <-]|[]]] [H1|[H1|[]]]; discriminate H1.
Defined.



Lemma dict_contains_keys {V} (k : string) (d : dict V) :
  dict_contains k d = true <-> In k (map fst d).
Proof.
  unfold dict_contains. destruct (dict_get k d) eqn:E.
  - split; [intros _|done]. apply dict_get_In in E.
    change k with (fst (k, v)). by apply in_map.
  - split; [done|]. intros Hin. by apply dict_get_None_keys in E.
Qed.

Lemma has_column_keys (k : string) (cols : list (string * loc)) :
  has_column k cols = true <-> In k (map fst cols).
Proof. rewrite has_column_dict_get. apply dict_contains_keys. Qed.

Lemma filter_keys_In {V} (p : string -> bool) (d : dict V) (k : string) :
  In k (map fst (List.filter (fun kv => p (fst kv)) d)) <-> In k (map fst d) /\ p k = true.
Proof.
  rewrite !in_map_iff. split.
  - intros (kv & <- & [Hin Hp]%filter_In). split; [by exists kv|done].
  - intros [(kv & <- & Hin) Hp]. exists kv. split; [done|]. by apply filter_In.
Qed.

(** The entries that apply, counted from the mapping, are as many as the
    columns that have an entry, counted from the table. *)
Lemma existing_entries_length self (cols : list (string * loc)) :
  NoDup (map fst self) ->
  NoDup (map fst cols) ->
  length (existing_entries self cols)
  = length (List.filter (fun c => dict_contains (fst c) self) cols).
Proof.
  intros Hself Hcols.
  rewrite <- (length_map fst (existing_entries self cols)).
  rewrite <- (length_map fst (List.filter _ cols)).
  apply Permutation_length, NoDup_Permutation.
  - unfold existing_entries.
    apply (filter_keys_NoDup (fun k => has_column k cols)).
    rewrite map_map. exact Hself.
  - exact (filter_keys_NoDup (fun k => dict_contains k self) cols Hcols).
  - intros k. rewrite !list_elem_of_In. unfold existing_entries.
    rewrite (filter_keys_In (fun k => has_column k cols)).
    rewrite (filter_keys_In (fun k => dict_contains k self) cols).
    rewrite map_map. simpl. rewrite has_column_keys, dict_contains_keys. tauto.
Qed.

(** X14: the notice of [rename_columns] counts the columns of the table
    that have an entry in the mapping. With no such column the table given
    is returned and the no-match notice is printed; otherwise the first
    line gives their number and one line follows for each, in the order of
    the mapping. *)
Theorem rename_columns_notice self w df cols :
  is_table w df cols ->
  NoDup (map fst self) ->
  exists df' w',
    rename_columns self df w = (Return df', w')
    /\ length (existing_entries self cols)
       = length (List.filter (fun c => dict_contains (fst c) self) cols)
    /\ match length (List.filter (fun c => dict_contains (fst c) self) cols) with
       | O => df' = df /\ stdout w' = stdout w ++ [notice_no_match]
       | S n =>
           stdout w'
           = stdout w
             ++ ("Renamed " +:+ pretty (S n) +:+ " columns:")
                :: map (fun kv => "  '" +:+ fst kv +:+ "' -> '" +:+ snd kv +:+ "'")
                     (existing_entries self cols)
       end.
Proof.
  intros Htable Hnd. pose proof Htable as [Hdf Hlabels _].
  pose proof (existing_entries_length self cols Hnd Hlabels) as Hlen.
  destruct (length (List.filter _ cols)) as [|n] eqn:Hn.
  - apply nil_length_inv in Hlen.
    eexists _, _. split; [by apply rename_columns_nothing with cols|]. by rewrite Hlen.
  - destruct (rename_columns_spec self w df cols Htable Hnd)
      as (df' & w' & cols' & Hrun & _ & _ & _ & Hout).
    exists df', w'. split; [done|]. split; [done|].
    destruct (existing_entries self cols) as [|kv existing] eqn:Hex; [done|].
    rewrite Hout. unfold notice_renamed. by rewrite Hlen.
Qed.

Lemma rename_columns_notice_witness :
  exists df' w',
    rename_columns example_mappings 1%positive example_world = (Return df', w')
    /\ length (existing_entries example_mappings [("sexo", 2%positive); ("edad", 3%positive)])
       = length (List.filter (fun c => dict_contains (fst c) example_mappings)
                   [("sexo", 2%positive); ("edad", 3%positive)])
    /\ match length (List.filter (fun c => dict_contains (fst c) example_mappings)
                       [("sexo", 2%positive); ("edad", 3%positive)]) with
       | O => df' = 1%positive
              /\ stdout w' = stdout example_world ++ [notice_no_match]
       | S n =>
           stdout w'
           = stdout example_world
             ++ ("Renamed " +:+ pretty (S n) +:+ " columns:")
                :: map (fun kv => "  '" +:+ fst kv +:+ "' -> '" +:+ snd kv +:+ "'")
                     (existing_entries example_mappings
                        [("sexo", 2%positive); ("edad", 3%positive)])
       end.
Proof.
  apply (rename_columns_notice example_mappings example_world 1%positive
           [("sexo", 2%positive); ("edad", 3%positive)]).
  - exact example_table_1.
  - exact example_keys_NoDup.
Defined.

(** ** The categorical columns, again *)

Lemma dict_set_keys {V} (k : string) (v : V) (d : dict V) :
  map fst (dict_set k v d) = map fst d \/ map fst (dict_set k v d) = map fst d ++ [k].
Proof.
  induction d as [|[k' v'] d IH]; simpl; [by right|].
  destruct (String.eqb k' k); simpl; [by left|].
  destruct IH as [->| ->]; [by left|by right].
Qed.

Lemma dict_set_NoDup {V} (k : string) (v : V) (d : dict V) :
  NoDup (map fst d) -> NoDup (map fst (dict_set k v d)).
Proof.
  induction d as [|[k' v'] d IH]; simpl; [intros _; repeat constructor; by intros []%elem_of_nil|].
  intros [Hk' Hnd]%NoDup_cons.
  destruct (String.eqb_spec k' k) as [->|Hne]; simpl.
  - by apply NoDup_cons.
  - apply NoDup_cons. split; [|by apply IH].
    destruct (dict_set_keys k v d) as [->| ->]; [done|].
    rewrite elem_of_app, list_elem_of_singleton. tauto.
Qed.

(** X15: the dictionary of categorical columns has each column name once,
    every category table in it has at least one code, and when several
    entries share a new name the table of the last categorical one is the
    one kept. *)
Theorem get_categorical_columns_invariants self :
  NoDup (map fst (get_categorical_columns self))
  /\ (forall name c,
        dict_get name (get_categorical_columns self) = Some c ->
        exists item pairs, c = Some (item :: pairs))
  /\ (forall pre old info post name,
        self = pre ++ (old, info) :: post ->
        categorical_entry name info ->
        (forall old' info', In (old', info') post -> ~ categorical_entry name info') ->
        dict_get name (get_categorical_columns self) = Some (categories info)).
Proof.
  split; [|split].
  - induction self as [|[old info] self IH] using rev_ind; [constructor|].
    rewrite get_categorical_columns_snoc.
    destruct (_ && _); [by apply dict_set_NoDup|done].
  - intros name c. apply get_categorical_columns_pairs.
  - intros pre old info post name -> Hentry Hpost.
    replace (pre ++ (old, info) :: post) with ((pre ++ [(old, info)]) ++ post)
      by (by rewrite <- app_assoc).
    induction post as [|[old' info'] post IH] using rev_ind.
    + rewrite app_nil_r, get_categorical_columns_snoc.
      apply categorical_entry_test in Hentry as [-> <-]. apply dict_get_set_eq.
    + rewrite app_assoc, get_categorical_columns_snoc.
      assert (Hnot : ~ categorical_entry name info').
      { apply (Hpost old'). apply in_app_iff. right. by left. }
      assert (IH' : dict_get name (get_categorical_columns ((pre ++ [(old, info)]) ++ post))
                    = Some (categories info)).
      { apply IH. intros o i Hin. apply (Hpost o). apply in_app_iff. by left. }
      destruct (String.eqb (type info') "categorical" && truthy (categories info')) eqn:E;
        [|exact IH'].
      rewrite dict_get_set_ne; [exact IH'|].
      intros Hname. apply Hnot. apply categorical_entry_test. by split.
Qed.

Lemma get_categorical_columns_invariants_witness :
  dict_get "sex" (get_categorical_columns shared_name_mappings)
  = Some (Some [("1", "Male"); ("2", "Female")]).
Proof.
  apply (proj2 (proj2 (get_categorical_columns_invariants shared_name_mappings))
           [("sexo", {| new_name := "sex"; type := "categorical"; categories := Some [] |})]
           "genero"
           {| new_name := "sex";
              type := "categorical";
              categories := Some [("1", "Male"); ("2", "Female")] |}
           [] "sex").
  - reflexivity.
  - repeat split.
  - intros old' info' [].
Defined.

(** ** String codes *)

Lemma all_chars_remove_dots s :
  Str.all_chars Str.is_digit_char (Str.remove_dots s)
  = Str.all_chars (fun c => Str.is_digit_char c || Str.is_dot c) s.
Proof.
  induction s as [|c s IH]; simpl; [done|].
  destruct (Str.is_dot c); simpl.
  - by rewrite orb_true_r.
  - by rewrite orb_false_r, IH.
Qed.

Lemma remove_dots_empty s :
  Str.remove_dots s = EmptyString <-> Str.all_chars Str.is_dot s = true.
Proof.
  induction s as [|c s IH]; simpl; [done|].
  destruct (Str.is_dot c); simpl; [exact IH|done].
Qed.

Lemma isdigit_all_chars s :
  Str.isdigit s = true <-> s <> EmptyString /\ Str.all_chars Str.is_digit_char s = true.
Proof. destruct s; simpl; [split; [done|by intros [[] _]]|]. split; [by split|by intros [_ ?]]. Qed.


Lemma numeric_guard_iff code :
  numeric_guard code = true
  <-> Str.all_chars (fun c => Str.is_digit_char c || Str.is_dot c) code = true
      /\ Str.all_chars Str.is_dot code = false.
Proof.
  unfold numeric_guard. rewrite isdigit_all_chars, all_chars_remove_dots.
  rewrite remove_dots_empty. destruct (Str.all_chars Str.is_dot code); split.
  - by intros [[] _].
  - by intros [_ ?].
  - by intros [_ ?].
  - by intros [? _].
Qed.

Lemma foldl_ext_in {A B} (f g : A -> B -> A) (xs : list B) :
  (forall a x, In x xs -> f a x = g a x) ->
  forall a, foldl f a xs = foldl g a xs.
Proof.
  induction xs as [|x xs IH]; intros H a; simpl; [done|].
  rewrite H by (by left). apply IH. intros a' x' Hx'. apply H. by right.
Qed.

Lemma string_code_target code :
  Str.all_chars (fun c => Str.is_digit_char c || Str.is_dot c) code = false
  \/ Str.all_chars Str.is_dot code = true ->
  target code = Some (VStr code).
Proof.
  intros Hshape.
  assert (Hg : numeric_guard code = false).
  { destruct (numeric_guard code) eqn:E; [|done].
    apply numeric_guard_iff in E as [H1 H2]. destruct Hshape; congruence. }
  unfold target. unfold numeric_guard in Hg. by rewrite Hg.
Qed.

(** X4: a code that is not made of digits and decimal points with at least
    one digit (a code with a sign, an exponent, a blank or a letter, the
    empty code, a code of points only) is compared with the cells as a
    string. On a category table of such codes the call never raises and
    returns the cells rewritten by exact string comparison, the codes taken
    in order: a number is never rewritten, whatever it is. *)
Theorem apply_categorical_mapping_string_codes self w df cols name l vs pairs :
  is_table w df cols ->
  dict_get name cols = Some l ->
  heap w !! l = Some (Series vs) ->
  dict_get name (get_categorical_columns self) = Some (Some pairs) ->
  Forall (fun item =>
            Str.all_chars (fun c => Str.is_digit_char c || Str.is_dot c) (fst item) = false
            \/ Str.all_chars Str.is_dot (fst item) = true)
         pairs ->
  exists r w',
    apply_categorical_mapping self df name w = (Return (Some r), w')
    /\ heap w' !! r = Some (Series (map (fun v => foldl string_rewrite_cell v pairs) vs))
    /\ Forall2 (fun v v' => is_number_cell v = true -> v' = v)
         vs (map (fun v => foldl string_rewrite_cell v pairs) vs).
Proof.
  intros [Hdf _ _] Hcol Hl Hcat Hshape. rewrite Forall_forall in Hshape.
  assert (Htarget : forall item, In item pairs -> target (fst item) = Some (VStr (fst item))).
  { intros item Hitem%list_elem_of_In. apply string_code_target. by apply Hshape. }
  assert (Hcell : forall v item, In item pairs ->
                    rewrite_cell v item = string_rewrite_cell v item).
  { intros v item Hitem. unfold rewrite_cell, string_rewrite_cell, code_matches.
    by rewrite (Htarget item Hitem). }
  assert (Hcells : rewrite_cells pairs vs
                   = map (fun v => foldl string_rewrite_cell v pairs) vs).
  { unfold rewrite_cells. apply map_ext. intros v. by apply foldl_ext_in. }
  destruct (apply_categorical_mapping_mapped self w df cols name l vs pairs)
    as (r & w' & Hrun & Hr & _); try done.
  { apply Forall_forall. intros item Hitem%list_elem_of_In.
    by rewrite (Htarget item Hitem). }
  exists r, w'. split; [done|]. split; [by rewrite <- Hcells|].
  rewrite <- Hcells. apply rewrite_cells_Forall2. intros v _ Hnum.
  apply foldl_rewrite_cell_unmatched. intros item Hitem.
  unfold code_matches. rewrite (Htarget item Hitem). by destruct v.
Qed.

Lemma signed_table : is_table signed_cells_world 1%positive [("balance", 2%positive)].
Proof.
  split; [reflexivity| |].
  - apply (bool_decide_unpack _). vm_compute. exact I.
  - repeat constructor; eexists; reflexivity.
Defined.

Lemma apply_categorical_mapping_string_codes_witness :
  exists r w',
    apply_categorical_mapping signed_codes_mappings 1%positive "balance" signed_cells_world
    = (Return (Some r), w')
    /\ heap w' !! r
       = Some (Series (map (fun v => foldl string_rewrite_cell v
                                       [("-1", "unknown"); ("1e5", "capped"); ("N/A", "none")])
                         [VNum (-1); VStr "-1"; VNum 100000; VStr "N/A"; VNum nan]))
    /\ Forall2 (fun v v' => is_number_cell v = true -> v' = v)
         [VNum (-1); VStr "-1"; VNum 100000; VStr "N/A"; VNum nan]
         (map (fun v => foldl string_rewrite_cell v
                          [("-1", "unknown"); ("1e5", "capped"); ("N/A", "none")])
            [VNum (-1); VStr "-1"; VNum 100000; VStr "N/A"; VNum nan]).
Proof.
  apply (apply_categorical_mapping_string_codes signed_codes_mappings signed_cells_world
           1%positive [("balance", 2%positive)] "balance" 2%positive
           [VNum (-1); VStr "-1"; VNum 100000; VStr "N/A"; VNum nan]
           [("-1", "unknown"); ("1e5", "capped"); ("N/A", "none")]).
  - exact signed_table.
  - reflexivity.
  - reflexivity.
  - reflexivity.
  - repeat constructor; left; reflexivity.
Defined.

(** The cells of the witness: the numbers -1.0 and 100000.0 stay, the
    strings are rewritten. *)
Example signed_codes_cells :
  map (fun v => foldl string_rewrite_cell v
                  [("-1", "unknown"); ("1e5", "capped"); ("N/A", "none")])
    [VNum (-1); VStr "-1"; VNum 100000; VStr "N/A"; VNum nan]
  = [VNum (-1); VStr "-1: unknown"; VNum 100000; VStr "N/A: none"; VNum nan].
Proof. reflexivity. Qed.

(** ** Plain codes *)

Lemma plain_decimal_of_guard code :
  numeric_guard code = true ->
  decimal_digits_only code = true ->
  (Str.count_dots code <= 1)%nat ->
  plain_decimal code = true.
Proof.
  intros [Hshape _]%numeric_guard_iff Hdec Hdots.
  unfold plain_decimal. apply andb_true_iff. split; [|by apply Nat.leb_le].
  unfold decimal_digits_only in Hdec. clear Hdots.
  induction code as [|c code IH]; simpl in *; [done|].
  apply andb_true_iff in Hshape as [Hc Hshape].
  apply andb_true_iff in Hdec as [Hc' Hdec].
  rewrite IH by done. rewrite andb_true_r.
  destruct (Str.is_digit_char c), (Str.is_decimal_char c), (Str.is_dot c); done.
Qed.

(** On a code with at most one decimal point whose digits are decimal
    digits, the loop compares as the specification says, and [float] reads
    the code. *)
Lemma code_matches_spec code :
  (Str.count_dots code <= 1)%nat ->
  decimal_digits_only code = true ->
  target code <> None /\ forall v, code_matches code v = spec_matches code v.
Proof.
  intros Hdots Hdec. unfold code_matches, spec_matches.
  rewrite <- (guard_is_spec_numeric code Hdots).
  destruct (numeric_guard code) eqn:Hg.
  - pose proof (plain_decimal_of_guard code Hg Hdec Hdots) as Hplain.
    assert (Hfloat : exists x, PyFloat.float code = Some x).
    { unfold PyFloat.float, PyFloat.well_formed. unfold plain_decimal in Hplain.
      rewrite Hplain. unfold numeric_guard in Hg. apply isdigit_nonempty in Hg.
      apply String.eqb_neq in Hg. rewrite Hg. simpl. eauto. }
    destruct Hfloat as (x & Hx). unfold target. unfold numeric_guard in Hg.
    rewrite Hg, Hx. simpl. by split.
  - unfold target. unfold numeric_guard in Hg. rewrite Hg. by split.
Qed.

(** X1: on a category table whose codes have at most one decimal point and
    no digit other than the decimal digits, the call does what the
    specification says of every code and every cell: it never raises, a
    code is numeric exactly when removing at most one decimal point leaves
    digits only, a numeric code is compared with the cells as the number
    [float] reads, every other code by exact equality, and the codes are
    applied in order. *)
Theorem apply_categorical_mapping_follows_spec self w df cols name l vs pairs :
  is_table w df cols ->
  dict_get name cols = Some l ->
  heap w !! l = Some (Series vs) ->
  dict_get name (get_categorical_columns self) = Some (Some pairs) ->
  Forall (fun item => (Str.count_dots (fst item) <= 1)%nat
                      /\ decimal_digits_only (fst item) = true)
         pairs ->
  exists r w',
    apply_categorical_mapping self df name w = (Return (Some r), w')
    /\ heap w' !! r = Some (Series (map (fun v => foldl spec_rewrite_cell v pairs) vs)).
Proof.
  intros [Hdf _ _] Hcol Hl Hcat Hplain. rewrite Forall_forall in Hplain.
  assert (Hspec : forall item, In item pairs ->
                    target (fst item) <> None
                    /\ forall v, code_matches (fst item) v = spec_matches (fst item) v).
  { intros item Hitem%list_elem_of_In. destruct (Hplain item Hitem) as [Hdots Hdec].
    by apply code_matches_spec. }
  destruct (apply_categorical_mapping_mapped self w df cols name l vs pairs)
    as (r & w' & Hrun & Hr & _); try done.
  { apply Forall_forall. intros item Hitem%list_elem_of_In. by apply Hspec. }
  exists r, w'. split; [done|]. rewrite Hr. f_equal. f_equal.
  unfold rewrite_cells. apply map_ext. intros v. apply foldl_ext_in.
  intros v' item Hitem. unfold rewrite_cell, spec_rewrite_cell, rewritten.
  by rewrite (proj2 (Hspec item Hitem)).
Qed.

Lemma apply_categorical_mapping_follows_spec_witness :
  exists r w',
    apply_categorical_mapping example_mappings 4%positive "sex" example_world
    = (Return (Some r), w')
    /\ heap w' !! r
       = Some (Series (map (fun v => foldl spec_rewrite_cell v [("1", "Male"); ("2", "Female")])
                         [VNum 1; VNum 2; VNum 1])).
Proof.
  apply (apply_categorical_mapping_follows_spec example_mappings example_world
           4%positive [("sex", 5%positive); ("age", 6%positive)] "sex" 5%positive
           [VNum 1; VNum 2; VNum 1] [("1", "Male"); ("2", "Female")]).
  - exact example_table_4.
  - reflexivity.
  - reflexivity.
  - reflexivity.
  - repeat constructor; simpl; lia.
Defined.
